(** * TripleClient: the client endpoint of the triple protocol

    A shallow embedding of package [triple]'s client
    ([TripleClient], [NewTripleClient], [Invoke], [Request],
    [StreamRequest], [Close], [IsAvailable]) and the properties of its
    dispatch logic.

    Go values are embedded as follows.
    - An interface value ([interface{}], [error], [context.Context]) is an
      [iface]; the nil interface is [Nil].
    - A [reflect.Value] is a [reflect_Value]: the zero Value ([Value_zero],
      the one [IsValid] rejects) or a Value wrapping something.
    - A [*TripleClient] is an address into the [clients] heap of the
      [world]; a nil or dangling receiver panics on its first field read.
    - A panic is an outcome of its own ([Panic]), distinct from a returned
      error.
    - A map is created empty and never written by this package, so a
      [common.TripleAttachment] is embedded by its contents.

    Everything the client reaches outside this file (the http2 controller,
    the generated stub, package tools, the constants) is a field of the
    class [Externals]. *)

From stdpp Require Import base option list gmap strings.

#[local] Set Warnings "-register-all".

(** ** Status codes and errors *)

(** Modelled from the spec: package internal/codes is not under src/; the
    status kinds are the closed taxonomy of the status error model. *)
Inductive Code : Type :=
  | OK
  | InvalidArgument
  | Unimplemented
  | Unavailable
  | DeadlineExceeded
  | Canceled
  | Internal
  | Unknown.

(** Modelled from the spec: package internal/status is not under src/. A
    non-nil Go [error] is one built by [status.Errorf], which carries a
    status kind and a message, or any other one. *)
Inductive error : Type :=
  | status_Errorf (c : Code) (msg : string)
  | errors_New (msg : string).

(** ** common.ErrorWithAttachment *)

(** Modelled from the spec: the file of package common that declares
    [ErrorWithAttachment] and [TripleAttachment] is not under src/. The
    struct is a pair of an optional error ([None] is the nil error) and a
    string-keyed attachment map, here with values of type [V]. *)
Record ErrorWithAttachment_ (V : Type) : Type := mkErrorWithAttachment {
  GetError : option error;
  GetAttachments : gmap string V
}.
Arguments mkErrorWithAttachment {V} _ _.
Arguments GetError {V} _.
Arguments GetAttachments {V} _.

(** ** Interface values *)

Inductive iface : Type :=
  | Nil
  | Ctx (c : list (string * iface))
  | Str (s : string)
  | ErrAtt (e : ErrorWithAttachment_ iface)
  | Err (e : error)
  | Ptr (p : nat)
  | Msg (payload : string)
  | Slice (l : list iface).

Abbreviation TripleAttachment := (gmap string iface).
Abbreviation ErrorWithAttachment := (ErrorWithAttachment_ iface).

(** [common.NewErrorWithAttachment]; the caller dereferences the result at
    once, so the struct is returned by value. *)
Definition NewErrorWithAttachment (err : option error)
    (attachment : TripleAttachment) : ErrorWithAttachment :=
  mkErrorWithAttachment err attachment.

(** Modelled from the spec: the kind of an outcome is [OK] without an error,
    the kind of a status error, [Unknown] for any other error. *)
Definition kind (e : ErrorWithAttachment) : Code :=
  match GetError e with
  | None => OK
  | Some (status_Errorf c _) => c
  | Some (errors_New _) => Unknown
  end.

(** ** context.Context *)

(** A context is the chain of its [WithValue] bindings, innermost first. *)
Abbreviation Context := (list (string * iface)).

Fixpoint lookup_binding {V : Type} (c : list (string * V)) (key : string)
    : option V :=
  match c with
  | [] => None
  | (k, v) :: parent => if decide (k = key) then Some v
                        else lookup_binding parent key
  end.

(** [ctx.Value(key)]: the bound value, or the nil interface. *)
Definition Context_Value (c : Context) (key : string) : iface :=
  match lookup_binding c key with
  | Some v => v
  | None => Nil
  end.

(** ** reflect.Value *)

Inductive reflect_Value (A : Type) : Type :=
  | Value_zero
  | Value_of (a : A).
Arguments Value_zero {A}.
Arguments Value_of {A} _.

(** [reflect.ValueOf]: the zero Value for a nil interface. *)
Definition reflect_ValueOf {A : Type} (i : option A) : reflect_Value A :=
  match i with
  | None => Value_zero
  | Some a => Value_of a
  end.

Definition IsValid {A : Type} (v : reflect_Value A) : bool :=
  match v with
  | Value_zero => false
  | Value_of _ => true
  end.

(** ** Outcomes of a call: a result or a panic, with the state left *)

Inductive result (S A : Type) : Type :=
  | Ok (a : A) (s : S)
  | Panic (msg : string) (s : S).
Arguments Ok {S A} _ _.
Arguments Panic {S A} _ _.

Definition final {S A : Type} (r : result S A) : S :=
  match r with
  | Ok _ s => s
  | Panic _ s => s
  end.

Definition returned {S A : Type} (r : result S A) : option A :=
  match r with
  | Ok a _ => Some a
  | Panic _ _ => None
  end.

Definition panicked {S A : Type} (r : result S A) : bool :=
  match r with
  | Ok _ _ => false
  | Panic _ _ => true
  end.

(** ** config.Option and the logger *)

(** Modelled from the spec: package config is not under src/. The part of
    [config.Option] the client reads is the codec kind; its [Logger] is the
    log of the [world]. *)
Record Option : Type := mkOption {
  CodecType : string
}.

Inductive level : Type := Debug | Error.

(** A call of [t.opt.Logger]: its level and its format string. *)
Definition log_line : Type := level * string.

(** ** What lies outside this file *)

(** A bound method of the generated stub, as [reflect.Value.Call] runs it:
    arbitrary code over the state outside the client ([X]: the transport,
    the memory behind reply targets), from argument Values to result
    Values. *)
Definition callable (X : Type) : Type :=
  list (reflect_Value iface) → X → result X (list (reflect_Value iface)).

(** The stub object [getInvoker] yields: its methods by name. *)
Abbreviation stub X := (gmap string (callable X)).

(** What the client uses and src/ does not hold, taken as parameters: the
    constants of package constant, [AddDefaultOption] and [ReflectResponse]
    of package tools, the controller of package internal/http2 with its
    constructor and methods, and [newTripleConn] and [getInvoker] of this
    package. A [*http2.TripleController] and a [*TripleConn] are addresses
    ([nat]); every function runs on the state outside the client and may
    panic. *)
Class Externals : Type := {
  Ext : Type;
  ClientStream : Type;
  Impl : Type;
  Codec : Type;
  constant_PBCodecName : string;
  constant_InterfaceKey : string;
  tools_AddDefaultOption : option Option → Option;
  tools_ReflectResponse :
    reflect_Value iface → iface → Ext → result Ext (option error);
  http2_NewTripleController : Option → Ext → result Ext (nat * option error);
  http2_UnaryInvoke :
    nat → Context → string → iface → iface → Ext →
    result Ext ErrorWithAttachment;
  http2_StreamInvoke :
    nat → Context → string → Ext →
    result Ext (option ClientStream * option error);
  http2_Destroy : nat → Ext → result Ext unit;
  http2_IsAvailable : nat → Ext → result Ext bool;
  newTripleConn : nat → nat;
  getInvoker : Impl → nat → Ext → result Ext (option (stub Ext))
}.

(** A call a method of [TripleClient] makes on its [h2Controller]. *)
Inductive h2_call : Type :=
  | UnaryInvoke_call (h : nat) (ctx : Context) (path : string)
      (arg reply : iface)
  | StreamInvoke_call (h : nat) (ctx : Context) (path : string)
  | Destroy_call (h : nat)
  | IsAvailable_call (h : nat).

Section Client.
Context `{E : Externals}.

(** ** The client and the world it runs in *)

Record TripleClient : Type := mkTripleClient {
  h2Controller : nat;
  stubInvoker : reflect_Value (stub Ext);
  (** [sync.Once]: whether its function has run *)
  once : bool;
  opt : Option;
  serializer : option Codec
}.

(** The heap of client objects, the state outside the client, the calls the
    methods of [TripleClient] made on controllers (oldest first) and the
    log. What a bound stub method does, its own traffic included, happens
    in [ext]. *)
Record world : Type := mkWorld {
  clients : gmap nat TripleClient;
  ext : Ext;
  io : list h2_call;
  logs : list log_line
}.

(** A Go computation over the world. *)
Definition Go (A : Type) : Type := world → result world A.

#[export] Instance Go_ret : MRet Go := λ A a w, Ok a w.

#[export] Instance Go_bind : MBind Go := λ A B f m w,
  match m w with
  | Ok a w' => f a w'
  | Panic msg w' => Panic msg w'
  end.

Definition panic {A : Type} (msg : string) : Go A := λ w, Panic msg w.

(** Reading a field of [*t]. *)
Definition deref (t : nat) : Go TripleClient := λ w,
  match clients w !! t with
  | Some c => Ok c w
  | None => Panic "invalid memory address or nil pointer dereference" w
  end.

Definition alloc (c : TripleClient) : Go nat := λ w,
  let t := fresh (dom (clients w)) in
  Ok t (mkWorld (<[t := c]> (clients w)) (ext w) (io w) (logs w)).

Definition store (t : nat) (c : TripleClient) : Go unit := λ w,
  Ok tt (mkWorld (<[t := c]> (clients w)) (ext w) (io w) (logs w)).

Definition Logger (l : level) (format : string) : Go unit := λ w,
  Ok tt (mkWorld (clients w) (ext w) (io w) (logs w ++ [(l, format)])).

(** Running code from outside the client. *)
Definition outside {A : Type} (f : Ext → result Ext A) : Go A := λ w,
  match f (ext w) with
  | Ok a x => Ok a (mkWorld (clients w) x (io w) (logs w))
  | Panic msg x => Panic msg (mkWorld (clients w) x (io w) (logs w))
  end.

(** A method call on a controller: noted in [io], then run. *)
Definition on_controller {A : Type} (c : h2_call) (f : Ext → result Ext A)
    : Go A := λ w,
  outside f (mkWorld (clients w) (ext w) (io w ++ [c]) (logs w)).

(** ** The reflect and conversion steps [Invoke] takes *)

(** [s[i]] on a slice. *)
Definition index {A : Type} (s : list A) (i : nat) : Go A :=
  match s !! i with
  | Some a => mret a
  | None => panic "runtime error: index out of range"
  end.

(** [v.Interface()]: panics on the zero Value. *)
Definition Interface (v : reflect_Value iface) : Go iface :=
  match v with
  | Value_of i => mret i
  | Value_zero => panic "reflect: call of reflect.Value.Interface on zero Value"
  end.

(** [v.MethodByName(name)]: panics on the zero Value; the zero Value when
    [v] has no method of that name. *)
Definition MethodByName (v : reflect_Value (stub Ext)) (name : string)
    : Go (reflect_Value (callable Ext)) :=
  match v with
  | Value_of s => mret (reflect_ValueOf (s !! name))
  | Value_zero =>
      panic "reflect: call of reflect.Value.MethodByName on zero Value"
  end.

(** [v.IsZero()] on the Value [MethodByName] gave. The reflect package:
    "IsZero reports whether v is the zero value for its type. It panics if
    the argument is invalid." A method Value is a func that is never nil,
    so it is not zero. *)
Definition IsZero (v : reflect_Value (callable Ext)) : Go bool :=
  match v with
  | Value_of _ => mret false
  | Value_zero => panic "reflect: call of reflect.Value.IsZero on zero Value"
  end.

(** [v.Call(in)]. *)
Definition Call (v : reflect_Value (callable Ext))
    (in_ : list (reflect_Value iface)) : Go (list (reflect_Value iface)) :=
  match v with
  | Value_of f => outside (f in_)
  | Value_zero => panic "reflect: call of reflect.Value.Call on zero Value"
  end.

(** [i.(context.Context)], without the comma-ok form. *)
Definition assert_Context (i : iface) : Go Context :=
  match i with
  | Ctx c => mret c
  | Nil => panic "interface conversion: interface is nil, not context.Context"
  | _ => panic "interface conversion: interface is not context.Context"
  end.

(** [i.(string)], without the comma-ok form. *)
Definition assert_string (i : iface) : Go string :=
  match i with
  | Str s => mret s
  | Nil => panic "interface conversion: interface {} is nil, not string"
  | _ => panic "interface conversion: interface {} is not string"
  end.

(** [i.(error)], without the comma-ok form, on a non-nil [i] that is not a
    [common.ErrorWithAttachment]. *)
Definition assert_error (i : iface) : Go error :=
  match i with
  | Err e => mret e
  | Nil => panic "interface conversion: interface is nil, not error"
  | _ => panic "interface conversion: missing method Error"
  end.

Definition is_nil (i : iface) : bool :=
  match i with
  | Nil => true
  | _ => false
  end.

(** ** The methods of TripleClient *)

(** [Request] calls h2Controller to send a unary rpc request to the server. *)
Definition Request (t : nat) (ctx : Context) (path : string)
    (arg reply : iface) : Go ErrorWithAttachment :=
  c ← deref t;
  on_controller (UnaryInvoke_call (h2Controller c) ctx path arg reply)
    (http2_UnaryInvoke (h2Controller c) ctx path arg reply).

(** [StreamRequest] calls h2Controller to open a stream. *)
Definition StreamRequest (t : nat) (ctx : Context) (path : string)
    : Go (option ClientStream * option error) :=
  c ← deref t;
  on_controller (StreamInvoke_call (h2Controller c) ctx path)
    (http2_StreamInvoke (h2Controller c) ctx path).

(** [Close] destroys the http controller and returns. *)
Definition Close (t : nat) : Go unit :=
  c ← deref t;
  Logger Debug "Triple Client Is closing";;
  on_controller (Destroy_call (h2Controller c))
    (http2_Destroy (h2Controller c)).

(** [IsAvailable] returns if the triple client is available. *)
Definition IsAvailable (t : nat) : Go bool :=
  c ← deref t;
  on_controller (IsAvailable_call (h2Controller c))
    (http2_IsAvailable (h2Controller c)).

(** The loop of the dynamic branch of [Invoke]:
    [for idx, v := range in { if idx > 0 { reqParams = append(reqParams,
    v.Interface()) } }], from index [idx] on. *)
Fixpoint range_in (idx : nat) (in_ : list (reflect_Value iface))
    (reqParams : list iface) : Go (list iface) :=
  match in_ with
  | [] => mret reqParams
  | v :: rest =>
      if bool_decide (0 < idx) then
        i ← Interface v;
        range_in (S idx) rest (reqParams ++ [i])
      else range_in (S idx) rest reqParams
  end.

(** [Invoke] calls the remote using the stub. In the typed branch a [return]
    from inside the [if]s is [inl], falling through to the lines after them
    is [inr] with the current [attachment]. *)
Definition Invoke (t : nat) (methodName : string)
    (in_ : list (reflect_Value iface)) (reply : iface)
    : Go ErrorWithAttachment :=
  c ← deref t;
  Logger Debug "TripleClient.Invoke: methodName = %s, inputValue = %+v, expected reply struct = %+v, client defined codec = %s";;
  let attachment : TripleAttachment := ∅ in
  if decide (CodecType (opt c) = constant_PBCodecName) then
    method ← MethodByName (stubInvoker c) methodName;
    zero ← IsZero method;
    if zero : bool then
      Logger Error "TripleClient.Invoke: methodName %s not impl in triple client api.";;
      mret (NewErrorWithAttachment
              (Some (status_Errorf Unimplemented
                       ("TripleClient.Invoke: methodName " +:+ methodName
                          +:+ " not impl in triple client api.")))
              attachment)
    else
      res ← Call method in_;
      res1 ← index res 1;
      i1 ← Interface res1;
      flow ← match i1 with
              | ErrAtt errWithAtta =>
                  Logger Debug "TripleClient.Invoke: get result final struct is common.ErrorWithAttachment";;
                  match GetError errWithAtta with
                  | Some e =>
                      Logger Debug "TripleClient.Invoke: get result errorWithAttachment, error = %s";;
                      mret (inl (NewErrorWithAttachment (Some e) attachment))
                  | None =>
                      let attachment := GetAttachments errWithAtta in
                      Logger Debug "TripleClient.Invoke: get response attachement = %+v";;
                      mret (inr attachment)
                  end
              | _ =>
                  if IsValid res1 && negb (is_nil i1) then
                    e ← assert_error i1;
                    Logger Debug "TripleClient.Invoke: get result final struct is error = %s";;
                    mret (inl (NewErrorWithAttachment (Some e) attachment))
                  else mret (inr attachment)
              end;
      match flow with
      | inl early => mret early
      | inr attachment =>
          res0 ← index res 0;
          Logger Debug "TripleClient.Invoke: get reply = %+v";;
          _ ← outside (tools_ReflectResponse res0 reply);
          mret (NewErrorWithAttachment None attachment)
      end
  else
    in0 ← index in_ 0;
    i0 ← Interface in0;
    ctx ← assert_Context i0;
    interfaceKey ← assert_string (Context_Value ctx constant_InterfaceKey);
    Logger Debug "TripleClient.Invoke: call with interfaceKey = %s";;
    reqParams ← range_in 0 in_ [];
    Request t ctx ("/" +:+ interfaceKey +:+ "/" +:+ methodName)
      (Slice reqParams) reply.

(** [NewTripleClient] creates a triple client. *)
Definition NewTripleClient (impl : Impl) (opt0 : option Option)
    : Go (option nat * option error) :=
  let opt1 := tools_AddDefaultOption opt0 in
  r ← outside (http2_NewTripleController opt1);
  let h2 := r.1 in
  match r.2 with
  | Some err =>
      Logger Error "NewTripleController err = %v";;
      mret (None, Some err)
  | None =>
      tripleClient ← alloc {| opt := opt1; h2Controller := h2;
                              stubInvoker := Value_zero; once := false;
                              serializer := None |};
      (if decide (CodecType opt1 = constant_PBCodecName) then
         s ← outside (getInvoker impl (newTripleConn tripleClient));
         c ← deref tripleClient;
         store tripleClient
           {| opt := opt c; h2Controller := h2Controller c;
              stubInvoker := reflect_ValueOf s; once := once c;
              serializer := serializer c |}
       else mret tt);;
      mret (Some tripleClient, None)
  end.

(** ** The client surface as data *)

(** One call on the surface of a constructed client. *)
Inductive operation : Type :=
  | do_Invoke (methodName : string) (in_ : list (reflect_Value iface))
      (reply : iface)
  | do_Request (ctx : Context) (path : string) (arg reply : iface)
  | do_StreamRequest (ctx : Context) (path : string)
  | do_Close
  | do_IsAvailable.

Definition perform (t : nat) (o : operation) : Go unit :=
  match o with
  | do_Invoke methodName in_ reply =>
      _ ← Invoke t methodName in_ reply; mret tt
  | do_Request ctx path arg reply => _ ← Request t ctx path arg reply; mret tt
  | do_StreamRequest ctx path => _ ← StreamRequest t ctx path; mret tt
  | do_Close => Close t
  | do_IsAvailable => _ ← IsAvailable t; mret tt
  end.

(** The operations of [os] one after the other, up to the first panic. *)
Fixpoint perform_all (t : nat) (os : list operation) : Go unit :=
  match os with
  | [] => mret tt
  | o :: rest => perform t o;; perform_all t rest
  end.

(** The world after some lines were logged. *)
Definition logged (lines : list log_line) (w : world) : world :=
  mkWorld (clients w) (ext w) (io w) (logs w ++ lines).

(** The world with the state outside the client replaced. *)
Definition with_ext (x : Ext) (w : world) : world :=
  mkWorld (clients w) x (io w) (logs w).

(** The client at [t] runs in typed mode with stub method [f] bound to
    [methodName]. *)
Definition typed_method (w : world) (t : nat) (methodName : string)
    (f : callable Ext) : Prop :=
  ∃ c s, clients w !! t = Some c
         ∧ CodecType (opt c) = constant_PBCodecName
         ∧ stubInvoker c = Value_of s
         ∧ s !! methodName = Some f.

(** The client at [t] runs in dynamic mode. *)
Definition dynamic_mode (w : world) (t : nat) : Prop :=
  ∃ c, clients w !! t = Some c ∧ CodecType (opt c) ≠ constant_PBCodecName.

(** What a caller and the outside can see of a run: the value returned or
    the panic, the state outside, the controller calls and the log. *)
Definition observable {A : Type} (r : result world A)
    : (A + string) * Ext * list h2_call * list log_line :=
  (match r with Ok a _ => inl a | Panic msg _ => inr msg end,
   ext (final r), io (final r), logs (final r)).

(** The world with the [stubInvoker] field of the client at [t] overwritten. *)
Definition with_stub (v : reflect_Value (stub Ext)) (t : nat) (w : world)
    : world :=
  match clients w !! t with
  | Some c =>
      mkWorld (<[t := {| h2Controller := h2Controller c; stubInvoker := v;
                         once := once c; opt := opt c;
                         serializer := serializer c |}]> (clients w))
        (ext w) (io w) (logs w)
  | None => w
  end.

(** A computation that leaves every client object as it was. *)
Definition keeps_clients {A : Type} (m : Go A) : Prop :=
  ∀ w, clients (final (m w)) = clients w.

(** The call on controller [h] that an operation delegating to it makes;
    [Invoke] has none of its own. *)
Definition call_of (h : nat) (o : operation) : option h2_call :=
  match o with
  | do_Invoke _ _ _ => None
  | do_Request ctx path arg reply =>
      Some (UnaryInvoke_call h ctx path arg reply)
  | do_StreamRequest ctx path => Some (StreamInvoke_call h ctx path)
  | do_Close => Some (Destroy_call h)
  | do_IsAvailable => Some (IsAvailable_call h)
  end.

End Client.

(** ** A concrete setting to run the client in *)

Module Demo.

(** The state outside the client: the memory behind pointers, the paths sent
    to the peer and how often the connection was released. *)
Record outside_state : Type := mkOutside {
  memory : gmap nat iface;
  sent : list string;
  released : nat
}.

Definition write (p : nat) (v : iface) (x : outside_state) : outside_state :=
  mkOutside (<[p := v]> (memory x)) (sent x) (released x).

(** A copy that fails on an invalid or nil source and on a target that is
    not a pointer. *)
Definition copy_response (v : reflect_Value iface) (out : iface)
    (x : outside_state) : result outside_state (option error) :=
  match v, out with
  | Value_of Nil, _ => Ok (Some (errors_New "@in is nil")) x
  | Value_of i, Ptr p => Ok None (write p i x)
  | Value_of _, _ => Ok (Some (errors_New "@out should be a pointer")) x
  | Value_zero, _ => Ok (Some (errors_New "@in is invalid")) x
  end.

(** A peer that answers every unary call with the path it was called on. *)
Definition unary (h : nat) (ctx : Context) (path : string) (arg reply : iface)
    (x : outside_state) : result outside_state ErrorWithAttachment :=
  let x' := mkOutside (memory x) (sent x ++ [path]) (released x) in
  match reply with
  | Ptr p =>
      Ok (NewErrorWithAttachment None (<["served-by" := Str "peer"]> ∅))
         (write p (Msg path) x')
  | _ => Ok (NewErrorWithAttachment
               (Some (status_Errorf Internal "reply is not a pointer")) ∅) x'
  end.

Definition destroy (h : nat) (x : outside_state)
    : result outside_state unit :=
  Ok tt (mkOutside (memory x) (sent x) (S (released x))).

Definition trailer : TripleAttachment := <["trace-id" := Str "42"]> ∅.

Definition boom : error := status_Errorf Unavailable "connection lost".

(** Stub methods of the four shapes slot 1 can take. *)
Definition SayHello : callable outside_state := λ _ x,
  Ok [Value_of (Msg "hello");
      Value_of (ErrAtt (mkErrorWithAttachment None trailer))] x.

Definition SayHelloFail : callable outside_state := λ _ x,
  Ok [Value_of Nil;
      Value_of (ErrAtt (mkErrorWithAttachment (Some boom) trailer))] x.

Definition SayHelloOld : callable outside_state := λ _ x,
  Ok [Value_of (Msg "hello"); Value_of Nil] x.

Definition SayHelloOldFail : callable outside_state := λ _ x,
  Ok [Value_of Nil; Value_of (Err boom)] x.

Definition greeter : stub outside_state :=
  <["SayHello" := SayHello]> (<["SayHelloFail" := SayHelloFail]>
  (<["SayHelloOld" := SayHelloOld]> (<["SayHelloOldFail" := SayHelloOldFail]>
  ∅))).

#[export] Instance E : Externals := {|
  Ext := outside_state;
  ClientStream := nat;
  Impl := option (stub outside_state);
  Codec := unit;
  constant_PBCodecName := "protobuf";
  constant_InterfaceKey := "interface";
  tools_AddDefaultOption := λ o, default (mkOption "protobuf") o;
  tools_ReflectResponse := copy_response;
  http2_NewTripleController := λ _ x, Ok (7, None) x;
  http2_UnaryInvoke := unary;
  http2_StreamInvoke := λ h _ _ x, Ok (Some h, None) x;
  http2_Destroy := destroy;
  http2_IsAvailable := λ _ x, Ok (bool_decide (released x = 0)) x;
  newTripleConn := λ t, t;
  getInvoker := λ impl _ x, Ok impl x
|}.

(** An implementation object whose [GetDubboStub] yields [greeter]. *)
Definition greeter_impl : Impl := Some greeter.

Definition typed_client : TripleClient :=
  {| h2Controller := 7; stubInvoker := Value_of greeter; once := false;
     opt := mkOption "protobuf"; serializer := None |}.

Definition dynamic_client : TripleClient :=
  {| h2Controller := 8; stubInvoker := Value_zero; once := false;
     opt := mkOption "hessian2"; serializer := None |}.

(** Client 1 is typed, client 2 is dynamic; address 0 holds a reply target. *)
Definition w0 : world :=
  {| clients := <[1 := typed_client]> (<[2 := dynamic_client]> ∅);
     ext := mkOutside (<[0 := Nil]> ∅) [] 0;
     io := [];
     logs := [] |}.

(** The call of the spec's dynamic-mode example. *)
Definition greeter_ctx : Context :=
  [("interface", Str "com.example.IGreeter")].

End Demo.

(** ** Further concrete settings: failures outside the client *)

Module Edge.

#[local] Existing Instance Demo.E.

(** Stub methods that break the two-slot convention or panic. *)
Definition Short : callable Demo.outside_state := λ _ x,
  Ok [Value_of (Msg "only")] (Demo.write 9 (Str "sent") x).

Definition Odd : callable Demo.outside_state := λ _ x,
  Ok [Value_of (Msg "value"); Value_of (Str "oops")]
     (Demo.write 9 (Str "sent") x).

Definition Crash : callable Demo.outside_state := λ _ x,
  Panic "stub crashed" (Demo.write 9 (Str "sent") x).

Definition odd_stub : stub Demo.outside_state :=
  <["Short" := Short]> (<["Odd" := Odd]> (<["Crash" := Crash]> ∅)).

(** A setting whose controller cannot be created. *)
Definition Offline : Externals := {|
  Ext := Demo.outside_state;
  ClientStream := nat;
  Impl := option (stub Demo.outside_state);
  Codec := unit;
  constant_PBCodecName := "protobuf";
  constant_InterfaceKey := "interface";
  tools_AddDefaultOption := λ o, default (mkOption "protobuf") o;
  tools_ReflectResponse := Demo.copy_response;
  http2_NewTripleController := λ _ x, Ok (0, Some Demo.boom) x;
  http2_UnaryInvoke := Demo.unary;
  http2_StreamInvoke := λ h _ _ x, Ok (Some h, None) x;
  http2_Destroy := Demo.destroy;
  http2_IsAvailable := λ _ x, Ok (bool_decide (Demo.released x = 0)) x;
  newTripleConn := λ t, t;
  getInvoker := λ impl _ x, Ok impl x
|}.

Definition odd_client : TripleClient :=
  {| h2Controller := 7; stubInvoker := Value_of odd_stub; once := false;
     opt := mkOption "protobuf"; serializer := None |}.

Definition unbound_client : TripleClient :=
  {| h2Controller := 9; stubInvoker := Value_zero; once := false;
     opt := mkOption "protobuf"; serializer := None |}.

(** Client 1 has the odd stub, client 2 is dynamic, client 4 is typed
    without a stub; address 3 holds no client. *)
Definition w1 : world :=
  {| clients := <[1 := odd_client]> (<[2 := Demo.dynamic_client]>
                (<[4 := unbound_client]> ∅));
     ext := Demo.mkOutside (<[0 := Nil]> ∅) [] 0;
     io := [];
     logs := [] |}.

Definition offline_world : world (E:=Offline) :=
  mkWorld (E:=Offline) ∅ (Demo.mkOutside ∅ [] 0) [] [].

(** An implementation object without a stub. *)
Definition no_impl : Impl (Externals:=Offline) := None.

(** Options that ask for a codec other than the protobuf one. *)
Definition hessian2 : option Option := Some (mkOption "hessian2").

End Edge.

(** * Properties *)

Section Properties.
Context `{E : Externals}.
Implicit Types (w : world) (t : nat) (methodName : string).
Implicit Types (reply : iface) (res : list (reflect_Value iface)).

(** ** Small steps *)

Lemma returned_final {S A : Type} (r : result S A) (a : A) :
  returned r = Some a → r = Ok a (final r).
Proof. destruct r; simpl; [by intros [= ->]|discriminate]. Defined.

Lemma logged_app lines1 lines2 w :
  logged lines2 (logged lines1 w) = logged (lines1 ++ lines2) w.
Proof. unfold logged; simpl. by rewrite <-(assoc_L (++)). Qed.

Lemma Logger_logged l format w :
  Logger l format w = Ok tt (logged [(l, format)] w).
Proof. reflexivity. Qed.

(** The loop keeps the arguments after the first, in order, and leaves the
    world alone. *)
Lemma range_in_valid (args : list iface) idx (acc : list iface) w :
  0 < idx →
  range_in idx (Value_of <$> args) acc w = Ok (acc ++ args) w.
Proof.
  revert idx acc. induction args as [|a args IH]; intros idx acc Hidx; simpl.
  - by rewrite (right_id_L [] (++)).
  - rewrite bool_decide_eq_true_2 by done.
    unfold mbind, Go_bind; simpl.
    rewrite IH by lia. by rewrite <-(assoc_L (++)).
Qed.

(** ** [Invoke], branch by branch *)

(** Closes a goal [r = Ok v (with_ext x (logged ?lines w))] once [r] has
    been run. *)
Ltac settle_world :=
  unfold with_ext, logged; simpl;
  rewrite <-?(assoc_L (++)); reflexivity.

(** Runs [Invoke] up to the results of the bound method. *)
Ltac enter_typed Htyped Hcall :=
  destruct Htyped as (c & s & Hc & Hpb & Hs & Hm);
  unfold Invoke, mbind, Go_bind, deref;
  rewrite Hc; simpl;
  destruct (decide (CodecType (opt c) = constant_PBCodecName));
    [|contradiction];
  rewrite Hs; simpl; rewrite Hm; simpl;
  unfold outside; simpl; rewrite Hcall; simpl.

(** Typed mode, slot 1 carries an error in either convention: the error
    comes back with the empty map made on entry; after the bound method
    only the log has changed. *)
Lemma Invoke_typed_error w t methodName (in_ : list (reflect_Value iface))
    reply f res x1 i1 e :
  typed_method w t methodName f →
  f in_ (ext w) = Ok res x1 →
  res !! 1 = Some (Value_of i1) →
  i1 = Err e ∨ (∃ a, i1 = ErrAtt (mkErrorWithAttachment (Some e) a)) →
  ∃ lines,
    Invoke t methodName in_ reply w
    = Ok (NewErrorWithAttachment (Some e) ∅) (with_ext x1 (logged lines w)).
Proof.
  intros Htyped Hcall Hres1 Hi1.
  destruct Hi1 as [->|[a ->]]; eexists;
    enter_typed Htyped Hcall;
    unfold index; rewrite Hres1; simpl; settle_world.
Qed.

(** Typed mode, slot 1 carries no error: the copy helper runs on slot 0 and
    the reply target, and whatever it answers, the outcome is a success with
    the attachments of slot 1. *)
Lemma Invoke_typed_success w t methodName (in_ : list (reflect_Value iface))
    reply f res x1 r0 i1 atts oe x2 :
  typed_method w t methodName f →
  f in_ (ext w) = Ok res x1 →
  res !! 0 = Some r0 →
  res !! 1 = Some (Value_of i1) →
  (i1 = Nil ∧ atts = ∅) ∨ i1 = ErrAtt (mkErrorWithAttachment None atts) →
  tools_ReflectResponse r0 reply x1 = Ok oe x2 →
  ∃ lines,
    Invoke t methodName in_ reply w
    = Ok (NewErrorWithAttachment None atts) (with_ext x2 (logged lines w)).
Proof.
  intros Htyped Hcall Hres0 Hres1 Hi1 Hcopy.
  destruct Hi1 as [[-> ->]| ->]; eexists;
    enter_typed Htyped Hcall;
    unfold index; rewrite Hres1; simpl;
    rewrite Hres0; simpl; rewrite Hcopy; simpl; settle_world.
Qed.

(** Typed mode, no method of that name: [MethodByName] gives the zero Value
    and [IsZero] panics on it. *)
Lemma Invoke_typed_missing w t methodName (in_ : list (reflect_Value iface))
    reply c s :
  clients w !! t = Some c →
  CodecType (opt c) = constant_PBCodecName →
  stubInvoker c = Value_of s →
  s !! methodName = None →
  ∃ lines,
    Invoke t methodName in_ reply w
    = Panic "reflect: call of reflect.Value.IsZero on zero Value"
        (logged lines w).
Proof.
  intros Hc Hpb Hs Hm. eexists.
  unfold Invoke, mbind, Go_bind, deref. rewrite Hc; simpl.
  destruct (decide (CodecType (opt c) = constant_PBCodecName));
    [|contradiction].
  rewrite Hs; simpl. rewrite Hm; simpl. reflexivity.
Qed.

(** Dynamic mode up to the context lookup. *)
Lemma Invoke_dynamic_no_key w t methodName (ctx : Context)
    (rest : list (reflect_Value iface)) reply :
  dynamic_mode w t →
  Context_Value ctx constant_InterfaceKey = Nil →
  ∃ lines,
    Invoke t methodName (Value_of (Ctx ctx) :: rest) reply w
    = Panic "interface conversion: interface {} is nil, not string"
        (logged lines w).
Proof.
  intros (c & Hc & Hdyn) Hkey. eexists.
  unfold Invoke, mbind, Go_bind, deref. rewrite Hc; simpl.
  destruct (decide (CodecType (opt c) = constant_PBCodecName));
    [contradiction|].
  simpl. rewrite Hkey; simpl. reflexivity.
Qed.

(** Dynamic mode with the key present: the call is [Request]'s. *)
Lemma Invoke_dynamic_Request w t methodName (ctx : Context)
    (args : list iface) reply interfaceKey :
  dynamic_mode w t →
  Context_Value ctx constant_InterfaceKey = Str interfaceKey →
  ∃ lines,
    Invoke t methodName (Value_of (Ctx ctx) :: (Value_of <$> args)) reply w
    = Request t ctx ("/" +:+ interfaceKey +:+ "/" +:+ methodName)
        (Slice args) reply (logged lines w).
Proof.
  intros (c & Hc & Hdyn) Hkey. eexists.
  unfold Invoke, mbind, Go_bind, deref. rewrite Hc; simpl.
  destruct (decide (CodecType (opt c) = constant_PBCodecName));
    [contradiction|].
  simpl. rewrite Hkey; simpl.
  rewrite range_in_valid by lia. simpl.
  unfold Request, mbind, Go_bind, deref; simpl. rewrite !Hc.
  unfold logged; simpl. rewrite <-?(assoc_L (++)). reflexivity.
Qed.

(** ** No method writes a client object *)

Lemma keeps_clients_ret {A : Type} (a : A) : keeps_clients (mret a).
Proof. by intros w. Qed.

Lemma keeps_clients_panic {A : Type} msg : keeps_clients (panic (A:=A) msg).
Proof. by intros w. Qed.

Lemma keeps_clients_bind {A B : Type} (m : Go A) (f : A → Go B) :
  keeps_clients m → (∀ a, keeps_clients (f a)) → keeps_clients (m ≫= f).
Proof.
  intros Hm Hf w. specialize (Hm w).
  unfold mbind, Go_bind. destruct (m w) as [a w1|msg w1]; simpl in *.
  - by rewrite Hf.
  - done.
Qed.

Lemma keeps_clients_deref t : keeps_clients (deref t).
Proof. intros w. unfold deref. by destruct (clients w !! t). Qed.

Lemma keeps_clients_Logger l format : keeps_clients (Logger l format).
Proof. by intros w. Qed.

Lemma keeps_clients_outside {A : Type} (f : Ext → result Ext A) :
  keeps_clients (outside f).
Proof. intros w. unfold outside. by destruct (f (ext w)). Qed.

Lemma keeps_clients_on_controller {A : Type} call (f : Ext → result Ext A) :
  keeps_clients (on_controller call f).
Proof.
  intros w. unfold on_controller, outside; simpl. by destruct (f (ext w)).
Qed.

Lemma keeps_clients_index {A : Type} (s : list A) i :
  keeps_clients (index s i).
Proof. intros w. unfold index. by destruct (s !! i). Qed.

Lemma keeps_clients_Interface v : keeps_clients (Interface v).
Proof. intros w. by destruct v. Qed.

Lemma keeps_clients_MethodByName v name : keeps_clients (MethodByName v name).
Proof. intros w. by destruct v. Qed.

Lemma keeps_clients_IsZero v : keeps_clients (IsZero v).
Proof. intros w. by destruct v. Qed.

Lemma keeps_clients_Call v (in_ : list (reflect_Value iface)) :
  keeps_clients (Call v in_).
Proof.
  destruct v as [|f]; [by intros w|]. apply keeps_clients_outside.
Qed.

Lemma keeps_clients_assert_Context i : keeps_clients (assert_Context i).
Proof. intros w. by destruct i. Qed.

Lemma keeps_clients_assert_string i : keeps_clients (assert_string i).
Proof. intros w. by destruct i. Qed.

Lemma keeps_clients_assert_error i : keeps_clients (assert_error i).
Proof. intros w. by destruct i. Qed.

Create HintDb frame discriminated.

#[local] Hint Resolve keeps_clients_ret keeps_clients_panic keeps_clients_deref
  keeps_clients_Logger keeps_clients_outside keeps_clients_on_controller
  keeps_clients_index keeps_clients_Interface keeps_clients_MethodByName
  keeps_clients_IsZero keeps_clients_Call keeps_clients_assert_Context
  keeps_clients_assert_string keeps_clients_assert_error : frame.

(** Splits a computation at its binds and branches. *)
Ltac frame_steps :=
  repeat first
    [ solve [auto with frame]
    | apply keeps_clients_bind; [|intros]
    | case_match ].

Lemma keeps_clients_range_in (in_ : list (reflect_Value iface)) idx acc :
  keeps_clients (range_in idx in_ acc).
Proof.
  revert idx acc. induction in_ as [|v rest IH]; intros idx acc; simpl.
  - auto with frame.
  - case_match; [apply keeps_clients_bind; [auto with frame|intros]|];
      apply IH.
Qed.

Lemma keeps_clients_Request t ctx path arg reply :
  keeps_clients (Request t ctx path arg reply).
Proof. unfold Request. frame_steps. Qed.

Lemma keeps_clients_StreamRequest t ctx path :
  keeps_clients (StreamRequest t ctx path).
Proof. unfold StreamRequest. frame_steps. Qed.

Lemma keeps_clients_Close t : keeps_clients (Close t).
Proof. unfold Close. frame_steps. Qed.

Lemma keeps_clients_IsAvailable t : keeps_clients (IsAvailable t).
Proof. unfold IsAvailable. frame_steps. Qed.

#[local] Hint Resolve keeps_clients_range_in keeps_clients_Request
  keeps_clients_StreamRequest keeps_clients_Close keeps_clients_IsAvailable
  : frame.

Lemma keeps_clients_Invoke t methodName (in_ : list (reflect_Value iface))
    reply :
  keeps_clients (Invoke t methodName in_ reply).
Proof. unfold Invoke. frame_steps. Qed.

#[local] Hint Resolve keeps_clients_Invoke : frame.

Lemma keeps_clients_perform t o : keeps_clients (perform t o).
Proof. destruct o; simpl; frame_steps. Qed.

Lemma keeps_clients_perform_all t os : keeps_clients (perform_all t os).
Proof.
  induction os as [|o os IH]; simpl; [auto with frame|].
  apply keeps_clients_bind; [apply keeps_clients_perform|intros; apply IH].
Qed.

(** ** Dynamic mode does not read the stub *)

(** The loop neither reads nor writes the world. *)
Lemma range_in_any_world (in_ : list (reflect_Value iface)) idx acc :
  ∃ r : list iface + string, ∀ w,
    range_in idx in_ acc w
    = match r with
      | inl l => Ok l w
      | inr msg => Panic msg w
      end.
Proof.
  revert idx acc. induction in_ as [|v rest IH]; intros idx acc; simpl.
  - by exists (inl acc).
  - case_match; [|apply IH].
    destruct v as [|i].
    + by eexists (inr _).
    + destruct (IH (S idx) (acc ++ [i])) as [r Hr]. by exists r.
Qed.

Lemma Invoke_dynamic_ignores_stub w t c v methodName
    (in_ : list (reflect_Value iface)) reply :
  clients w !! t = Some c →
  CodecType (opt c) ≠ constant_PBCodecName →
  observable (Invoke t methodName in_ reply (with_stub v t w))
  = observable (Invoke t methodName in_ reply w).
Proof.
  intros Hc Hdyn. unfold with_stub. rewrite Hc.
  unfold Invoke, mbind, Go_bind, deref; simpl.
  rewrite lookup_insert_eq, Hc; simpl.
  destruct (decide (CodecType (opt c) = constant_PBCodecName));
    [contradiction|].
  destruct in_ as [|[|i0] rest]; simpl; try reflexivity.
  destruct i0; simpl; try reflexivity.
  destruct (Context_Value c0 constant_InterfaceKey); simpl; try reflexivity.
  destruct (range_in_any_world rest 1 []) as [[l|msg] Hloop];
    rewrite !Hloop; [|reflexivity].
  unfold Request, mbind, Go_bind, deref; simpl.
  rewrite lookup_insert_eq, Hc; simpl.
  unfold on_controller, outside; simpl.
  match goal with
  | |- context [http2_UnaryInvoke ?h ?x ?pa ?ar ?re ?e] =>
      destruct (http2_UnaryInvoke h x pa ar re e)
  end; reflexivity.
Qed.

(** ** Construction *)

(** What a successful [NewTripleClient] leaves at the address it returns. *)
Lemma NewTripleClient_built impl o w t w' :
  NewTripleClient impl o w = Ok (Some t, None) w' →
  ∃ c, clients w' !! t = Some c
       ∧ opt c = tools_AddDefaultOption o
       ∧ (CodecType (opt c) = constant_PBCodecName →
          ∃ x s, getInvoker impl (newTripleConn t) x = Ok s (ext w')
                 ∧ stubInvoker c = reflect_ValueOf s)
       ∧ (CodecType (opt c) ≠ constant_PBCodecName →
          stubInvoker c = Value_zero).
Proof.
  intros Hnew. unfold NewTripleClient, mbind, Go_bind, outside in Hnew.
  destruct (http2_NewTripleController (tools_AddDefaultOption o) (ext w))
    as [[h oe] x|msg x]; simpl in Hnew; [|discriminate].
  destruct oe as [err|]; simpl in Hnew; [discriminate|].
  destruct (decide (CodecType (tools_AddDefaultOption o)
                    = constant_PBCodecName)) as [Hpb|Hdyn]; simpl in Hnew.
  - match type of Hnew with
    | context [getInvoker ?i ?conn ?x0] =>
        destruct (getInvoker i conn x0) as [s x2|msg x2] eqn:Hget
    end; simpl in Hnew; [|discriminate].
    unfold deref in Hnew; simpl in Hnew.
    rewrite lookup_insert_eq in Hnew; simpl in Hnew.
    injection Hnew as <- <-. simpl.
    eexists. split; [apply lookup_insert_eq|]. simpl.
    split; [reflexivity|]. split; [intros _; by exists x, s|done].
  - injection Hnew as <- <-. simpl.
    eexists. split; [apply lookup_insert_eq|]. simpl.
    split; [reflexivity|]. split; [done|by intros _].
Qed.

(** * The claims *)

(** C1 (as amended). In dynamic mode, when the context of the first argument
    does not carry the interface key, [Invoke] returns no outcome at all,
    of kind InvalidArgument or any other: the unchecked [.(string)] on the
    context value panics. This happens before any transport contact: no
    call reaches the controller, and neither the state outside the client
    (reply target included) nor any client object has changed. *)
Theorem Invoke_dynamic_missing_key_panics w t methodName (ctx : Context)
    (rest : list (reflect_Value iface)) reply :
  dynamic_mode w t →
  lookup_binding ctx constant_InterfaceKey = None →
  let r := Invoke t methodName (Value_of (Ctx ctx) :: rest) reply w in
  panicked r = true ∧ returned r = None
  ∧ io (final r) = io w ∧ ext (final r) = ext w
  ∧ clients (final r) = clients w.
Proof.
  intros Hdyn Hkey r.
  destruct (Invoke_dynamic_no_key w t methodName ctx rest reply Hdyn)
    as [lines Hrun].
  { unfold Context_Value. by rewrite Hkey. }
  subst r. rewrite Hrun. done.
Qed.

(** C2. [Close] does not go through the [once] field: a [Close] after a
    completed [Close] calls the controller's [Destroy] a second time, runs
    it on the state the first one left, and [once] is as it was. *)
Theorem Close_again_destroys_again w t c w1 :
  clients w !! t = Some c →
  Close t w = Ok tt w1 →
  let r := Close t w1 in
  io w1 = io w ++ [Destroy_call (h2Controller c)]
  ∧ io (final r)
    = io w ++ [Destroy_call (h2Controller c); Destroy_call (h2Controller c)]
  ∧ ext (final r) = final (http2_Destroy (h2Controller c) (ext w1))
  ∧ once <$> clients (final r) !! t = Some (once c).
Proof.
  intros Hc Hfirst r. subst r.
  assert (clients w1 = clients w) as Hkeep
    by (pose proof (keeps_clients_Close t w) as H; by rewrite Hfirst in H).
  assert (io w1 = io w ++ [Destroy_call (h2Controller c)]) as Hio.
  { revert Hfirst.
    unfold Close, mbind, Go_bind, deref, on_controller, outside.
    rewrite Hc; simpl.
    destruct (http2_Destroy (h2Controller c) (ext w)); [|discriminate].
    by intros [= _ <-]. }
  split; [done|].
  rewrite (keeps_clients_Close t w1), Hkeep, Hc.
  unfold Close, mbind, Go_bind, deref, on_controller, outside.
  rewrite Hkeep, Hc; simpl. rewrite Hio.
  destruct (http2_Destroy (h2Controller c) (ext w1)); simpl;
    by rewrite <-(assoc_L (++)).
Qed.

(** C3. In typed mode, for a method name the stub does not have, [Invoke]
    panics in [IsZero] on the zero Value [MethodByName] gave: it returns no
    outcome, so none of kind Unimplemented. Nothing was sent and nothing
    outside the client was touched. *)
Theorem Invoke_typed_unknown_method_panics w t methodName
    (in_ : list (reflect_Value iface)) reply c s :
  clients w !! t = Some c →
  CodecType (opt c) = constant_PBCodecName →
  stubInvoker c = Value_of s →
  s !! methodName = None →
  let r := Invoke t methodName in_ reply w in
  panicked r = true ∧ returned r = None
  ∧ io (final r) = io w ∧ ext (final r) = ext w.
Proof.
  intros Hc Hpb Hs Hm r.
  destruct (Invoke_typed_missing w t methodName in_ reply c s Hc Hpb Hs Hm)
    as [lines Hrun].
  subst r. rewrite Hrun. done.
Qed.

(** C4. In dynamic mode, with interface key [K] in the context of the first
    argument and [a1..an] after it, [Invoke] is [Request] on the path
    ["/" + K + "/" + methodName], the parameter list [[a1..an]] in order and
    the same reply target; the one call it makes on the controller is that
    unary invoke. *)
Theorem Invoke_dynamic_delegates_to_Request w t methodName (ctx : Context)
    (args : list iface) reply K :
  dynamic_mode w t →
  Context_Value ctx constant_InterfaceKey = Str K →
  let path := "/" +:+ K +:+ "/" +:+ methodName in
  let r := Invoke t methodName (Value_of (Ctx ctx) :: (Value_of <$> args))
             reply w in
  ∃ lines c,
    clients w !! t = Some c
    ∧ r = Request t ctx path (Slice args) reply (logged lines w)
    ∧ io (final r)
      = io w ++ [UnaryInvoke_call (h2Controller c) ctx path (Slice args)
                   reply].
Proof.
  intros Hdyn Hkey path r.
  destruct (Invoke_dynamic_Request w t methodName ctx args reply K Hdyn Hkey)
    as [lines Hrun].
  destruct Hdyn as (c & Hc & _).
  exists lines, c. subst r path. rewrite Hrun. split; [done|]. split; [done|].
  unfold Request, mbind, Go_bind, deref, on_controller, outside; simpl.
  rewrite Hc; simpl.
  by destruct (http2_UnaryInvoke _ _ _ _ _ _).
Qed.

(** C5. In typed mode, when slot 1 of the bound method's results signals an
    error, as an ErrorWithAttachment with a non-nil error or as a plain
    non-nil error, [Invoke] returns that error at once: the copy into the
    reply target is not run, so the state outside the client is the one the
    bound method left, and no controller call is made by [Invoke]. *)
Theorem Invoke_typed_error_leaves_reply w t methodName
    (in_ : list (reflect_Value iface)) reply f res x1 i1 e :
  typed_method w t methodName f →
  f in_ (ext w) = Ok res x1 →
  res !! 1 = Some (Value_of i1) →
  i1 = Err e ∨ (∃ a, i1 = ErrAtt (mkErrorWithAttachment (Some e) a)) →
  let r := Invoke t methodName in_ reply w in
  GetError <$> returned r = Some (Some e)
  ∧ ext (final r) = x1 ∧ io (final r) = io w
  ∧ clients (final r) = clients w.
Proof.
  intros Htyped Hcall Hres1 Hi1 r.
  destruct (Invoke_typed_error w t methodName in_ reply f res x1 i1 e
              Htyped Hcall Hres1 Hi1) as [lines Hrun].
  subst r. rewrite Hrun. done.
Qed.

(** C6. In typed mode, when slot 1 signals no error, [Invoke] hands slot 0
    and the reply target to the copy helper, whose effect is the only change
    outside the client after the bound method, and returns a success that
    carries the attachments of the ErrorWithAttachment in slot 1, or the
    empty map when slot 1 is a nil plain error. *)
Theorem Invoke_typed_success_copies_reply w t methodName
    (in_ : list (reflect_Value iface)) reply f res x1 r0 i1 atts oe x2 :
  typed_method w t methodName f →
  f in_ (ext w) = Ok res x1 →
  res !! 0 = Some r0 →
  res !! 1 = Some (Value_of i1) →
  (i1 = Nil ∧ atts = ∅) ∨ i1 = ErrAtt (mkErrorWithAttachment None atts) →
  tools_ReflectResponse r0 reply x1 = Ok oe x2 →
  let r := Invoke t methodName in_ reply w in
  returned r = Some (NewErrorWithAttachment None atts)
  ∧ ext (final r) = x2 ∧ io (final r) = io w.
Proof.
  intros Htyped Hcall Hres0 Hres1 Hi1 Hcopy r.
  destruct (Invoke_typed_success w t methodName in_ reply f res x1 r0 i1 atts
              oe x2 Htyped Hcall Hres0 Hres1 Hi1 Hcopy) as [lines Hrun].
  subst r. rewrite Hrun. done.
Qed.

(** C7. In typed mode both conventions for slot 1 are accepted: a plain
    non-nil error is returned paired with the empty attachment map, which is
    the outcome of a run whose slot 1 is an ErrorWithAttachment with the
    same error. *)
Theorem Invoke_typed_plain_error_as_error_with_attachment
    w t methodName (in_ : list (reflect_Value iface)) reply f res x1 e
    w' t' methodName' (in' : list (reflect_Value iface)) reply' f' res' x1' a :
  typed_method w t methodName f →
  f in_ (ext w) = Ok res x1 →
  res !! 1 = Some (Value_of (Err e)) →
  typed_method w' t' methodName' f' →
  f' in' (ext w') = Ok res' x1' →
  res' !! 1 = Some (Value_of (ErrAtt (mkErrorWithAttachment (Some e) a))) →
  returned (Invoke t methodName in_ reply w)
  = Some (NewErrorWithAttachment (Some e) ∅)
  ∧ returned (Invoke t methodName in_ reply w)
    = returned (Invoke t' methodName' in' reply' w').
Proof.
  intros Htyped Hcall Hres1 Htyped' Hcall' Hres1'.
  destruct (Invoke_typed_error w t methodName in_ reply f res x1 _ e
              Htyped Hcall Hres1) as [lines Hrun]; [by left|].
  destruct (Invoke_typed_error w' t' methodName' in' reply' f' res' x1' _ e
              Htyped' Hcall' Hres1') as [lines' Hrun']; [right; by exists a|].
  by rewrite Hrun, Hrun'.
Qed.

(** C8. A client that [NewTripleClient] returns has the stub recorded exactly
    when its configured codec (the one of the options after defaulting) is
    the protobuf one: with that codec [stubInvoker] is the Value of what
    [getInvoker] gave, with any other it is the zero Value and [Invoke]
    behaves the same whatever is put in the field. No sequence of operations
    on any client changes any client object afterwards, the recorded stub
    included. *)
Theorem NewTripleClient_stub_iff_protobuf impl o w t w' :
  NewTripleClient impl o w = Ok (Some t, None) w' →
  ∃ c, clients w' !! t = Some c
       ∧ opt c = tools_AddDefaultOption o
       ∧ (stubInvoker c ≠ Value_zero →
          CodecType (opt c) = constant_PBCodecName)
       ∧ (CodecType (opt c) = constant_PBCodecName →
          ∃ x s, getInvoker impl (newTripleConn t) x = Ok s (ext w')
                 ∧ stubInvoker c = reflect_ValueOf s)
       ∧ (CodecType (opt c) ≠ constant_PBCodecName →
          stubInvoker c = Value_zero
          ∧ ∀ w1 v methodName (in_ : list (reflect_Value iface)) reply,
              clients w1 !! t = Some c →
              observable (Invoke t methodName in_ reply (with_stub v t w1))
              = observable (Invoke t methodName in_ reply w1))
       ∧ (∀ w1 u os, clients (final (perform_all u os w1)) = clients w1).
Proof.
  intros Hnew.
  destruct (NewTripleClient_built impl o w t w' Hnew)
    as (c & Hc & Hopt & Hpb & Hdyn).
  exists c. split; [done|]. split; [done|]. split.
  { intros Hstub.
    destruct (decide (CodecType (opt c) = constant_PBCodecName)); [done|].
    by destruct Hstub; apply Hdyn. }
  split; [done|]. split.
  - intros Hcodec. split; [by apply Hdyn|].
    intros w1 v methodName in_ reply Hc1.
    by apply Invoke_dynamic_ignores_stub with c.
  - intros w1 u os. apply keeps_clients_perform_all.
Qed.

(** C9. In typed mode, when slot 1 is an ErrorWithAttachment with a non-nil
    error, [Invoke] returns the error with the empty map made on entry:
    whatever attachments slot 1 carried are not in the outcome. *)
Theorem Invoke_typed_error_drops_attachments w t methodName
    (in_ : list (reflect_Value iface)) reply f res x1 e a :
  typed_method w t methodName f →
  f in_ (ext w) = Ok res x1 →
  res !! 1 = Some (Value_of (ErrAtt (mkErrorWithAttachment (Some e) a))) →
  returned (Invoke t methodName in_ reply w)
  = Some (NewErrorWithAttachment (Some e) ∅).
Proof.
  intros Htyped Hcall Hres1.
  destruct (Invoke_typed_error w t methodName in_ reply f res x1 _ e
              Htyped Hcall Hres1) as [lines Hrun]; [right; by exists a|].
  by rewrite Hrun.
Qed.

(** C10. In typed mode on the success path, the answer of the copy helper is
    dropped: whether it reports an error or not, [Invoke] returns an outcome
    with a nil error, of kind OK. *)
Theorem Invoke_typed_copy_failure_discarded w t methodName
    (in_ : list (reflect_Value iface)) reply f res x1 r0 i1 atts oe x2 :
  typed_method w t methodName f →
  f in_ (ext w) = Ok res x1 →
  res !! 0 = Some r0 →
  res !! 1 = Some (Value_of i1) →
  (i1 = Nil ∧ atts = ∅) ∨ i1 = ErrAtt (mkErrorWithAttachment None atts) →
  tools_ReflectResponse r0 reply x1 = Ok oe x2 →
  let r := Invoke t methodName in_ reply w in
  GetError <$> returned r = Some None ∧ kind <$> returned r = Some OK.
Proof.
  intros Htyped Hcall Hres0 Hres1 Hi1 Hcopy r.
  destruct (Invoke_typed_success w t methodName in_ reply f res x1 r0 i1 atts
              oe x2 Htyped Hcall Hres0 Hres1 Hi1 Hcopy) as [lines Hrun].
  subst r. rewrite Hrun. done.
Qed.

End Properties.

(** * Further properties of the client *)

Section Further.
Context `{E : Externals}.
Implicit Types (w : world) (t : nat) (methodName : string).
Implicit Types (reply : iface) (res : list (reflect_Value iface)).

(** Runs [Invoke] into its dynamic branch. *)
Ltac enter_dynamic Hc :=
  unfold Invoke, mbind, Go_bind, deref;
  rewrite Hc; simpl;
  destruct (decide (CodecType (opt _) = constant_PBCodecName));
    [contradiction|];
  simpl.

(** Runs [Invoke] into its typed branch. *)
Ltac enter_typed_branch Hc :=
  unfold Invoke, mbind, Go_bind, deref;
  rewrite Hc; simpl;
  destruct (decide (CodecType (opt _) = constant_PBCodecName));
    [|contradiction];
  simpl.

(** ** Malformed calls in dynamic mode *)

(** X1. In dynamic mode, when the argument list is empty or its first
    element is not a Value holding a context, [Invoke] panics on line 109,
    before anything is sent: no controller call, nothing outside the client
    changed. *)
Theorem Invoke_dynamic_no_context_panics w t methodName
    (in_ : list (reflect_Value iface)) reply :
  dynamic_mode w t →
  (∀ c, head in_ ≠ Some (Value_of (Ctx c))) →
  let r := Invoke t methodName in_ reply w in
  panicked r = true ∧ io (final r) = io w ∧ ext (final r) = ext w.
Proof.
  intros (c & Hc & Hdyn) Hhead r. subst r. enter_dynamic Hc.
  destruct in_ as [|[|i0] rest]; simpl; [done..|].
  destruct i0; simpl; try done.
  by destruct (Hhead c0).
Qed.

(** X2. In dynamic mode, when the context binds the interface key to
    something that is not a string, [Invoke] panics on line 110, before
    anything is sent. *)
Theorem Invoke_dynamic_key_not_string_panics w t methodName (ctx : Context)
    (rest : list (reflect_Value iface)) reply :
  dynamic_mode w t →
  (∀ s, Context_Value ctx constant_InterfaceKey ≠ Str s) →
  let r := Invoke t methodName (Value_of (Ctx ctx) :: rest) reply w in
  panicked r = true ∧ io (final r) = io w ∧ ext (final r) = ext w.
Proof.
  intros (c & Hc & Hdyn) Hkey r. subst r. enter_dynamic Hc.
  destruct (Context_Value ctx constant_InterfaceKey) eqn:Hv; simpl; try done.
  by destruct (Hkey s).
Qed.

(** The loop panics on a zero Value past index 0. *)
Lemma range_in_zero_Value (rest : list (reflect_Value iface)) idx acc w :
  0 < idx →
  Value_zero ∈ rest →
  range_in idx rest acc w
  = Panic "reflect: call of reflect.Value.Interface on zero Value" w.
Proof.
  revert idx acc. induction rest as [|v rest IH]; intros idx acc Hidx Hin.
  - by apply elem_of_nil in Hin.
  - simpl. rewrite bool_decide_eq_true_2 by done.
    unfold mbind, Go_bind. destruct v as [|i]; simpl; [done|].
    apply IH; [lia|]. apply elem_of_cons in Hin as [Hin|Hin]; done.
Qed.

(** X3. In dynamic mode, when one of the arguments after the context is the
    zero Value, [Invoke] panics in the loop of lines 113-117 even though the
    interface key is present: [Request] is not reached. *)
Theorem Invoke_dynamic_zero_argument_panics w t methodName (ctx : Context)
    (rest : list (reflect_Value iface)) reply K :
  dynamic_mode w t →
  Context_Value ctx constant_InterfaceKey = Str K →
  Value_zero ∈ rest →
  let r := Invoke t methodName (Value_of (Ctx ctx) :: rest) reply w in
  panicked r = true ∧ io (final r) = io w ∧ ext (final r) = ext w.
Proof.
  intros (c & Hc & Hdyn) Hkey Hzero r. subst r. enter_dynamic Hc.
  rewrite Hkey; simpl.
  by rewrite range_in_zero_Value by (done || lia).
Qed.

(** ** Broken stubs in typed mode *)

(** X4. In typed mode, when no stub was recorded ([stubInvoker] is the zero
    Value, as after a [getInvoker] that gave nil), [Invoke] panics in
    [MethodByName] for every method name. *)
Theorem Invoke_typed_zero_stub_panics w t methodName
    (in_ : list (reflect_Value iface)) reply c :
  clients w !! t = Some c →
  CodecType (opt c) = constant_PBCodecName →
  stubInvoker c = Value_zero →
  let r := Invoke t methodName in_ reply w in
  panicked r = true ∧ io (final r) = io w ∧ ext (final r) = ext w.
Proof.
  intros Hc Hpb Hs r. subst r. enter_typed_branch Hc.
  by rewrite Hs.
Qed.

(** X5. In typed mode, when the bound method gives fewer than two results,
    [Invoke] panics on [res[1]]: the method has run (its effects outside
    stay) and nothing is copied into the reply target. *)
Theorem Invoke_typed_short_results_panics w t methodName
    (in_ : list (reflect_Value iface)) reply f res x1 :
  typed_method w t methodName f →
  f in_ (ext w) = Ok res x1 →
  length res < 2 →
  let r := Invoke t methodName in_ reply w in
  panicked r = true ∧ ext (final r) = x1 ∧ io (final r) = io w.
Proof.
  intros (c & s & Hc & Hpb & Hs & Hm) Hcall Hlen r. subst r.
  enter_typed_branch Hc. rewrite Hs; simpl. rewrite Hm; simpl.
  unfold outside; simpl. rewrite Hcall; simpl.
  unfold index. rewrite (lookup_ge_None_2 res 1) by lia. done.
Qed.

(** X6. In typed mode, when slot 1 holds a non-nil value that is neither an
    ErrorWithAttachment nor an error, [Invoke] panics on the unchecked
    [.(error)] of line 103; nothing is copied into the reply target. *)
Theorem Invoke_typed_slot1_not_error_panics w t methodName
    (in_ : list (reflect_Value iface)) reply f res x1 i1 :
  typed_method w t methodName f →
  f in_ (ext w) = Ok res x1 →
  res !! 1 = Some (Value_of i1) →
  i1 ≠ Nil → (∀ e, i1 ≠ Err e) → (∀ e, i1 ≠ ErrAtt e) →
  let r := Invoke t methodName in_ reply w in
  panicked r = true ∧ ext (final r) = x1 ∧ io (final r) = io w.
Proof.
  intros (c & s & Hc & Hpb & Hs & Hm) Hcall Hres1 Hnil Herr Hatt r. subst r.
  destruct i1 as [|ctx|str|ea|er|p|payload|l];
    [done| | |by destruct (Hatt ea)|by destruct (Herr er)| | |];
    enter_typed_branch Hc; rewrite Hs; simpl; rewrite Hm; simpl;
    unfold outside; simpl; rewrite Hcall; simpl;
    unfold index; rewrite Hres1; done.
Qed.

(** X7. [Invoke] does not recover: a panic of the bound method is the panic
    of [Invoke], with what the method had done outside left in place. *)
Theorem Invoke_typed_method_panic_propagates w t methodName
    (in_ : list (reflect_Value iface)) reply f msg x1 :
  typed_method w t methodName f →
  f in_ (ext w) = Panic msg x1 →
  ∃ lines,
    Invoke t methodName in_ reply w
    = Panic msg (with_ext x1 (logged lines w)).
Proof.
  intros (c & s & Hc & Hpb & Hs & Hm) Hcall. eexists.
  enter_typed_branch Hc. rewrite Hs; simpl. rewrite Hm; simpl.
  unfold outside; simpl. rewrite Hcall; simpl. reflexivity.
Qed.

(** ** Construction *)

(** X8. When the controller cannot be created, [NewTripleClient] returns no
    client and that error: no client object is allocated, [getInvoker] is
    not run, and one line is logged at level Error. *)
Theorem NewTripleClient_controller_error impl o w h err x :
  http2_NewTripleController (tools_AddDefaultOption o) (ext w)
  = Ok (h, Some err) x →
  NewTripleClient impl o w
  = Ok (None, Some err)
      (mkWorld (clients w) x (io w)
         (logs w ++ [(Error, "NewTripleController err = %v")])).
Proof.
  intros Hctl. unfold NewTripleClient, mbind, Go_bind, outside.
  rewrite Hctl; simpl. reflexivity.
Qed.

(** X9. The address a successful [NewTripleClient] returns held no client
    before, every other address holds what it held, and no call was made on
    a controller. *)
Theorem NewTripleClient_fresh impl o w t w' :
  NewTripleClient impl o w = Ok (Some t, None) w' →
  clients w !! t = None
  ∧ (∀ u, u ≠ t → clients w' !! u = clients w !! u)
  ∧ io w' = io w.
Proof.
  intros Hnew. unfold NewTripleClient, mbind, Go_bind, outside in Hnew.
  destruct (http2_NewTripleController (tools_AddDefaultOption o) (ext w))
    as [[h oe] x|msg x]; simpl in Hnew; [|discriminate].
  destruct oe as [err|]; simpl in Hnew; [discriminate|].
  assert (clients w !! fresh (dom (clients w)) = None) as Hfresh
    by (apply not_elem_of_dom, is_fresh).
  destruct (decide (CodecType (tools_AddDefaultOption o)
                    = constant_PBCodecName)) as [Hpb|Hdyn]; simpl in Hnew.
  - match type of Hnew with
    | context [getInvoker ?i ?conn ?x0] =>
        destruct (getInvoker i conn x0) as [s x2|msg x2]
    end; simpl in Hnew; [|discriminate].
    unfold deref in Hnew; simpl in Hnew.
    rewrite lookup_insert_eq in Hnew; simpl in Hnew.
    injection Hnew as <- <-. simpl.
    split; [done|]. split; [|done].
    intros u Hu. by rewrite !lookup_insert_ne.
  - injection Hnew as <- <-. simpl.
    split; [done|]. split; [|done].
    intros u Hu. by rewrite lookup_insert_ne.
Qed.

(** With a codec other than the protobuf one, construction is the creation
    of the controller and the allocation of the client. *)
Lemma NewTripleClient_dynamic_run impl o w h x :
  CodecType (tools_AddDefaultOption o) ≠ constant_PBCodecName →
  http2_NewTripleController (tools_AddDefaultOption o) (ext w)
  = Ok (h, None) x →
  NewTripleClient impl o w
  = Ok (Some (fresh (dom (clients w))), None)
      (mkWorld
         (<[fresh (dom (clients w)) :=
              {| h2Controller := h; stubInvoker := Value_zero; once := false;
                 opt := tools_AddDefaultOption o; serializer := None |}]>
            (clients w))
         x (io w) (logs w)).
Proof.
  intros Hdyn Hctl. unfold NewTripleClient, mbind, Go_bind, outside.
  rewrite Hctl; simpl.
  destruct (decide (CodecType (tools_AddDefaultOption o)
                    = constant_PBCodecName)); [contradiction|].
  reflexivity.
Qed.

(** X10. With a codec other than the protobuf one and a controller that was
    created, [NewTripleClient] returns a client: it holds that controller,
    the defaulted options, no stub and an unused [once]; [getInvoker] was not
    run (the state outside is the one the controller's creation left) and
    nothing is logged. *)
Theorem NewTripleClient_dynamic_succeeds impl o w h x :
  CodecType (tools_AddDefaultOption o) ≠ constant_PBCodecName →
  http2_NewTripleController (tools_AddDefaultOption o) (ext w)
  = Ok (h, None) x →
  let r := NewTripleClient impl o w in
  ∃ t, returned r = Some (Some t, None)
       ∧ clients (final r) !! t
         = Some {| h2Controller := h; stubInvoker := Value_zero;
                   once := false; opt := tools_AddDefaultOption o;
                   serializer := None |}
       ∧ ext (final r) = x ∧ logs (final r) = logs w.
Proof.
  intros Hdyn Hctl r. subst r.
  rewrite (NewTripleClient_dynamic_run impl o w h x Hdyn Hctl); simpl.
  eexists. split; [done|]. split; [apply lookup_insert_eq|done].
Qed.

(** X11. Construction and call compose in dynamic mode: on the client just
    built, an [Invoke] whose context carries interface key [K] makes one
    unary invoke, on the controller that [NewTripleController] gave. *)
Theorem NewTripleClient_then_Invoke_dynamic impl o w h x methodName
    (ctx : Context) (args : list iface) reply K :
  CodecType (tools_AddDefaultOption o) ≠ constant_PBCodecName →
  http2_NewTripleController (tools_AddDefaultOption o) (ext w)
  = Ok (h, None) x →
  Context_Value ctx constant_InterfaceKey = Str K →
  let built := NewTripleClient impl o w in
  ∃ t, returned built = Some (Some t, None)
       ∧ io (final (Invoke t methodName
                      (Value_of (Ctx ctx) :: (Value_of <$> args)) reply
                      (final built)))
         = io w ++ [UnaryInvoke_call h ctx
                      ("/" +:+ K +:+ "/" +:+ methodName) (Slice args) reply].
Proof.
  intros Hdyn Hctl Hkey built. subst built.
  rewrite (NewTripleClient_dynamic_run impl o w h x Hdyn Hctl); simpl.
  eexists. split; [done|].
  match goal with
  | |- context [Invoke ?t _ _ _ ?w1] =>
      assert (dynamic_mode w1 t) as Hmode
        by (eexists; split; [apply lookup_insert_eq|done]);
      destruct (Invoke_dynamic_Request w1 t methodName ctx args reply K
                  Hmode Hkey) as [lines ->]
  end.
  unfold Request, mbind, Go_bind, deref, on_controller, outside; simpl.
  rewrite lookup_insert_eq; simpl.
  by destruct (http2_UnaryInvoke _ _ _ _ _ _).
Qed.

(** X12. Construction and call compose in typed mode: when [getInvoker]
    yields the stub [st] for the implementation, every method of [st] is
    bound on the client just built, so [Invoke] by that name runs it. *)
Theorem NewTripleClient_then_typed_method impl o w t w' st methodName f :
  NewTripleClient impl o w = Ok (Some t, None) w' →
  CodecType (tools_AddDefaultOption o) = constant_PBCodecName →
  (∀ conn x s x', getInvoker impl conn x = Ok s x' → s = Some st) →
  st !! methodName = Some f →
  typed_method w' t methodName f.
Proof.
  intros Hnew Hpb Hget Hm.
  destruct (NewTripleClient_built impl o w t w' Hnew)
    as (c & Hc & Hopt & Hrec & _).
  rewrite <-Hopt in Hpb.
  destruct (Hrec Hpb) as (x & s & Hs & Hstub).
  apply Hget in Hs as ->.
  by exists c, st.
Qed.

(** ** The delegating methods *)

(** X13. [Request], [StreamRequest], [Close] and [IsAvailable] make exactly
    one call on a controller, the one of their kind on the controller of the
    receiver, and write no client object. *)
Theorem delegating_operation_calls_own_controller w t c o call :
  clients w !! t = Some c →
  call_of (h2Controller c) o = Some call →
  io (final (perform t o w)) = io w ++ [call]
  ∧ clients (final (perform t o w)) = clients w.
Proof.
  intros Hc Hcall. split; [|apply keeps_clients_perform].
  destruct o; simpl in Hcall; [discriminate|..];
    injection Hcall as <-; simpl;
    unfold Request, StreamRequest, Close, IsAvailable,
      mbind, Go_bind, deref, on_controller, outside;
    rewrite Hc; simpl.
  - by destruct (http2_UnaryInvoke _ _ _ _ _ _).
  - by destruct (http2_StreamInvoke _ _ _ _).
  - by destruct (http2_Destroy _ _).
  - by destruct (http2_IsAvailable _ _).
Qed.

(** X14. On a receiver that points to no client, every method panics on its
    first field read, with the world exactly as it was. *)
Theorem nil_receiver_panics w t o :
  clients w !! t = None →
  perform t o w
  = Panic "invalid memory address or nil pointer dereference" w.
Proof.
  intros Hc. destruct o; simpl;
    unfold Invoke, Request, StreamRequest, Close, IsAvailable,
      mbind, Go_bind, deref;
    by rewrite Hc.
Qed.

(** ** Which calls [Invoke] can make *)

(** X15. In typed mode [Invoke] itself makes no call on the controller,
    whatever the arguments, the stub and its results: what reaches the
    transport does so inside the bound method. *)
Theorem Invoke_typed_makes_no_call w t c methodName
    (in_ : list (reflect_Value iface)) reply :
  clients w !! t = Some c →
  CodecType (opt c) = constant_PBCodecName →
  io (final (Invoke t methodName in_ reply w)) = io w.
Proof.
  intros Hc Hpb. enter_typed_branch Hc.
  destruct (stubInvoker c) as [|s]; simpl; [done|].
  destruct (s !! methodName) as [f|]; simpl; [|done].
  unfold outside; simpl.
  destruct (f in_ (ext w)) as [res x1|msg x1]; simpl; [|done].
  unfold index.
  destruct (res !! 1) as [[|i1]|]; simpl; [done| |done].
  destruct i1 as [|ctx|str|[[err|] atts]|er|p|payload|l]; simpl; try done;
    destruct (res !! 0) as [r0|]; simpl; try done;
    by destruct (tools_ReflectResponse r0 reply x1).
Qed.

(** X16. In dynamic mode [Invoke] makes at most one call on a controller:
    none when it panics on the way, otherwise one unary invoke on the
    controller of the receiver with the caller's context and reply
    target. *)
Theorem Invoke_dynamic_at_most_one_call w t c methodName
    (in_ : list (reflect_Value iface)) reply :
  clients w !! t = Some c →
  CodecType (opt c) ≠ constant_PBCodecName →
  let r := Invoke t methodName in_ reply w in
  (panicked r = true ∧ io (final r) = io w)
  ∨ ∃ ctx path arg,
      head in_ = Some (Value_of (Ctx ctx))
      ∧ io (final r)
        = io w ++ [UnaryInvoke_call (h2Controller c) ctx path arg reply].
Proof.
  intros Hc Hdyn r. subst r. enter_dynamic Hc.
  destruct in_ as [|[|i0] rest]; simpl; [by left..|].
  destruct i0 as [|ctx|str|ea|er|p|payload|l]; simpl; try by left.
  destruct (Context_Value ctx constant_InterfaceKey); simpl; try by left.
  destruct (range_in_any_world rest 1 []) as [[l|msg] Hloop];
    rewrite Hloop; [|by left].
  right. eexists ctx, _, _. split; [done|].
  unfold Request, mbind, Go_bind, deref, on_controller, outside; simpl.
  rewrite Hc; simpl.
  by destruct (http2_UnaryInvoke _ _ _ _ _ _).
Qed.

(** X17. In dynamic mode the answer of the controller is the answer of
    [Invoke]: the outcome (error and attachments alike) or the panic of the
    unary invoke comes back as it is, and what it did outside stays. *)
Theorem Invoke_dynamic_passes_outcome_through w t c methodName
    (ctx : Context) (args : list iface) reply K :
  clients w !! t = Some c →
  CodecType (opt c) ≠ constant_PBCodecName →
  Context_Value ctx constant_InterfaceKey = Str K →
  let r := Invoke t methodName (Value_of (Ctx ctx) :: (Value_of <$> args))
             reply w in
  let answer := http2_UnaryInvoke (h2Controller c) ctx
                  ("/" +:+ K +:+ "/" +:+ methodName) (Slice args) reply
                  (ext w) in
  returned r = returned answer
  ∧ panicked r = panicked answer
  ∧ ext (final r) = final answer.
Proof.
  intros Hc Hdyn Hkey r answer. subst r answer.
  destruct (Invoke_dynamic_Request w t methodName ctx args reply K)
    as [lines ->]; [by exists c|done|].
  unfold Request, mbind, Go_bind, deref, on_controller, outside; simpl.
  rewrite Hc; simpl.
  by destruct (http2_UnaryInvoke _ _ _ _ _ _).
Qed.

(** ** [Close] in sequence with other calls *)


(** X19. [Close] does not put the client out of use: after a completed
    [Close], [Request] still calls the controller's unary invoke and returns
    its answer. *)
Theorem Request_after_Close_reaches_controller w t c w1 (ctx : Context)
    path (arg : iface) reply :
  clients w !! t = Some c →
  Close t w = Ok tt w1 →
  let r := Request t ctx path arg reply w1 in
  io (final r)
  = io w ++ [Destroy_call (h2Controller c);
             UnaryInvoke_call (h2Controller c) ctx path arg reply]
  ∧ returned r
    = returned (http2_UnaryInvoke (h2Controller c) ctx path arg reply
                  (ext w1)).
Proof.
  intros Hc Hclose r. subst r.
  revert Hclose.
  unfold Close, mbind, Go_bind, deref, on_controller, outside.
  rewrite Hc; simpl.
  destruct (http2_Destroy (h2Controller c) (ext w)) as [[] x|msg x];
    [|discriminate].
  intros [= <-].
  unfold Request, mbind, Go_bind, deref, on_controller, outside; simpl.
  rewrite Hc; simpl.
  destruct (http2_UnaryInvoke _ _ _ _ _ _); simpl;
    by rewrite <-(assoc_L (++)).
Qed.

End Further.

(** * The claims at work in the concrete setting *)

#[local] Existing Instance Demo.E.

Lemma typed_method_greeter methodName f :
  Demo.greeter !! methodName = Some f →
  typed_method Demo.w0 1 methodName f.
Proof. intros Hm. by exists Demo.typed_client, Demo.greeter. Defined.

Lemma dynamic_mode_client_2 : dynamic_mode Demo.w0 2.
Proof. exists Demo.dynamic_client. split; [reflexivity|]. by vm_compute. Defined.

(** C1 as stated fails: a dynamic-mode call whose context lacks the interface
    key gives no outcome of kind InvalidArgument; it panics. *)
Lemma Invoke_dynamic_missing_key_not_InvalidArgument :
  let r := Invoke 2 "BigUnaryTest"
             [Value_of (Ctx [("timeout", Str "3s")]); Value_of (Msg "req")]
             (Ptr 0) Demo.w0 in
  panicked r = true
  ∧ ¬ ∃ e w', r = Ok e w' ∧ kind e = InvalidArgument.
Proof.
  intros r. assert (panicked r = true) as Hp by (by vm_compute).
  split; [done|].
  intros (e & w' & Hrun & _). rewrite Hrun in Hp. discriminate.
Qed.

Lemma Invoke_dynamic_missing_key_panics_witness :
  let r := Invoke 2 "BigUnaryTest"
             [Value_of (Ctx [("timeout", Str "3s")]); Value_of (Msg "req")]
             (Ptr 0) Demo.w0 in
  panicked r = true ∧ returned r = None
  ∧ io (final r) = io Demo.w0 ∧ ext (final r) = ext Demo.w0
  ∧ clients (final r) = clients Demo.w0.
Proof.
  apply (Invoke_dynamic_missing_key_panics Demo.w0 2 "BigUnaryTest"
           [("timeout", Str "3s")] [Value_of (Msg "req")] (Ptr 0)).
  - exact dynamic_mode_client_2.
  - reflexivity.
Defined.

Lemma Close_again_destroys_again_witness :
  let w1 := final (Close 1 Demo.w0) in
  let r := Close 1 w1 in
  io w1 = io Demo.w0 ++ [Destroy_call 7]
  ∧ io (final r) = io Demo.w0 ++ [Destroy_call 7; Destroy_call 7]
  ∧ ext (final r) = final (http2_Destroy 7 (ext w1))
  ∧ once <$> clients (final r) !! 1 = Some false.
Proof.
  apply (Close_again_destroys_again Demo.w0 1 Demo.typed_client
           (final (Close 1 Demo.w0))).
  - reflexivity.
  - reflexivity.
Defined.

(** Two calls of [Close] release the connection twice. *)
Example Close_twice_released_twice :
  let r := (Close 1;; Close 1) Demo.w0 in
  io (final r) = [Destroy_call 7; Destroy_call 7]
  ∧ Demo.released (ext (final r)) = 2.
Proof. by vm_compute. Qed.

Lemma Invoke_typed_unknown_method_panics_witness :
  let r := Invoke 1 "SayGoodbye" [] (Ptr 0) Demo.w0 in
  panicked r = true ∧ returned r = None
  ∧ io (final r) = io Demo.w0 ∧ ext (final r) = ext Demo.w0.
Proof.
  apply (Invoke_typed_unknown_method_panics Demo.w0 1 "SayGoodbye" [] (Ptr 0)
           Demo.typed_client Demo.greeter); reflexivity.
Defined.

Lemma Invoke_dynamic_delegates_to_Request_witness :
  let path := "/" +:+ "com.example.IGreeter" +:+ "/" +:+ "BigUnaryTest" in
  let r := Invoke 2 "BigUnaryTest"
             (Value_of (Ctx Demo.greeter_ctx) :: (Value_of <$> [Msg "req"]))
             (Ptr 0) Demo.w0 in
  ∃ lines c,
    clients Demo.w0 !! 2 = Some c
    ∧ r = Request 2 Demo.greeter_ctx path (Slice [Msg "req"]) (Ptr 0)
            (logged lines Demo.w0)
    ∧ io (final r)
      = io Demo.w0 ++ [UnaryInvoke_call (h2Controller c) Demo.greeter_ctx path
                         (Slice [Msg "req"]) (Ptr 0)].
Proof.
  apply (Invoke_dynamic_delegates_to_Request Demo.w0 2 "BigUnaryTest"
           Demo.greeter_ctx [Msg "req"] (Ptr 0) "com.example.IGreeter").
  - exact dynamic_mode_client_2.
  - reflexivity.
Defined.

(** The dynamic-mode example of the spec. *)
Example Invoke_BigUnaryTest :
  io (final (Invoke 2 "BigUnaryTest"
               [Value_of (Ctx Demo.greeter_ctx); Value_of (Msg "req")]
               (Ptr 0) Demo.w0))
  = [UnaryInvoke_call 8 Demo.greeter_ctx "/com.example.IGreeter/BigUnaryTest"
       (Slice [Msg "req"]) (Ptr 0)].
Proof. by vm_compute. Qed.

Lemma Invoke_typed_error_leaves_reply_witness :
  let r := Invoke 1 "SayHelloFail" [] (Ptr 0) Demo.w0 in
  GetError <$> returned r = Some (Some Demo.boom)
  ∧ ext (final r) = ext Demo.w0 ∧ io (final r) = io Demo.w0
  ∧ clients (final r) = clients Demo.w0.
Proof.
  apply (Invoke_typed_error_leaves_reply Demo.w0 1 "SayHelloFail" [] (Ptr 0)
           Demo.SayHelloFail
           [Value_of Nil;
            Value_of (ErrAtt (mkErrorWithAttachment (Some Demo.boom)
                                Demo.trailer))]
           (ext Demo.w0)
           (ErrAtt (mkErrorWithAttachment (Some Demo.boom) Demo.trailer))
           Demo.boom).
  - by apply typed_method_greeter.
  - reflexivity.
  - reflexivity.
  - right. by exists Demo.trailer.
Defined.

Lemma Invoke_typed_success_copies_reply_witness :
  let r := Invoke 1 "SayHello" [] (Ptr 0) Demo.w0 in
  returned r = Some (NewErrorWithAttachment None Demo.trailer)
  ∧ ext (final r) = Demo.write 0 (Msg "hello") (ext Demo.w0)
  ∧ io (final r) = io Demo.w0.
Proof.
  apply (Invoke_typed_success_copies_reply Demo.w0 1 "SayHello" [] (Ptr 0)
           Demo.SayHello
           [Value_of (Msg "hello");
            Value_of (ErrAtt (mkErrorWithAttachment None Demo.trailer))]
           (ext Demo.w0) (Value_of (Msg "hello"))
           (ErrAtt (mkErrorWithAttachment None Demo.trailer))
           Demo.trailer None).
  - by apply typed_method_greeter.
  - reflexivity.
  - reflexivity.
  - reflexivity.
  - by right.
  - reflexivity.
Defined.

(** The reply target holds slot 0 afterwards. *)
Example Invoke_SayHello_reply :
  Demo.memory (ext (final (Invoke 1 "SayHello" [] (Ptr 0) Demo.w0))) !! 0
  = Some (Msg "hello").
Proof. by vm_compute. Qed.

(** The old convention in slot 1: a nil error gives the empty map. *)
Example Invoke_SayHelloOld :
  returned (Invoke 1 "SayHelloOld" [] (Ptr 0) Demo.w0)
  = Some (NewErrorWithAttachment None ∅).
Proof. by vm_compute. Qed.

Lemma Invoke_typed_plain_error_as_error_with_attachment_witness :
  returned (Invoke 1 "SayHelloOldFail" [] (Ptr 0) Demo.w0)
  = Some (NewErrorWithAttachment (Some Demo.boom) ∅)
  ∧ returned (Invoke 1 "SayHelloOldFail" [] (Ptr 0) Demo.w0)
    = returned (Invoke 1 "SayHelloFail" [] (Ptr 0) Demo.w0).
Proof.
  apply (Invoke_typed_plain_error_as_error_with_attachment
           Demo.w0 1 "SayHelloOldFail" [] (Ptr 0) Demo.SayHelloOldFail
           [Value_of Nil; Value_of (Err Demo.boom)] (ext Demo.w0) Demo.boom
           Demo.w0 1 "SayHelloFail" [] (Ptr 0) Demo.SayHelloFail
           [Value_of Nil;
            Value_of (ErrAtt (mkErrorWithAttachment (Some Demo.boom)
                                Demo.trailer))]
           (ext Demo.w0) Demo.trailer).
  - by apply typed_method_greeter.
  - reflexivity.
  - reflexivity.
  - by apply typed_method_greeter.
  - reflexivity.
  - reflexivity.
Defined.

Lemma NewTripleClient_stub_iff_protobuf_witness :
  ∃ c, clients (final (NewTripleClient Demo.greeter_impl None Demo.w0)) !! 3
       = Some c
       ∧ opt c = tools_AddDefaultOption None
       ∧ (stubInvoker c ≠ Value_zero →
          CodecType (opt c) = constant_PBCodecName)
       ∧ (CodecType (opt c) = constant_PBCodecName →
          ∃ x s, getInvoker Demo.greeter_impl (newTripleConn 3) x
                 = Ok s (ext (final (NewTripleClient Demo.greeter_impl None
                                       Demo.w0)))
                 ∧ stubInvoker c = reflect_ValueOf s)
       ∧ (CodecType (opt c) ≠ constant_PBCodecName →
          stubInvoker c = Value_zero
          ∧ ∀ w1 v methodName (in_ : list (reflect_Value iface)) reply,
              clients w1 !! 3 = Some c →
              observable (Invoke 3 methodName in_ reply (with_stub v 3 w1))
              = observable (Invoke 3 methodName in_ reply w1))
       ∧ (∀ w1 u os, clients (final (perform_all u os w1)) = clients w1).
Proof.
  apply (NewTripleClient_stub_iff_protobuf Demo.greeter_impl None Demo.w0 3
           (final (NewTripleClient Demo.greeter_impl None Demo.w0))).
  apply returned_final. vm_compute. reflexivity.
Defined.

(** Construction in the concrete setting: the stub is recorded under the
    protobuf codec and is not under another one. *)
Example NewTripleClient_protobuf :
  stubInvoker <$> clients (final (NewTripleClient Demo.greeter_impl None
                                    Demo.w0)) !! 3
  = Some (Value_of Demo.greeter).
Proof. by vm_compute. Qed.

Example NewTripleClient_hessian2 :
  stubInvoker <$> clients (final (NewTripleClient Demo.greeter_impl
                                    (Some (mkOption "hessian2")) Demo.w0)) !! 3
  = Some Value_zero.
Proof. by vm_compute. Qed.

Lemma Invoke_typed_error_drops_attachments_witness :
  Demo.trailer ≠ ∅
  ∧ returned (Invoke 1 "SayHelloFail" [] (Ptr 0) Demo.w0)
    = Some (NewErrorWithAttachment (Some Demo.boom) ∅).
Proof.
  split; [by vm_compute|].
  apply (Invoke_typed_error_drops_attachments Demo.w0 1 "SayHelloFail" []
           (Ptr 0) Demo.SayHelloFail
           [Value_of Nil;
            Value_of (ErrAtt (mkErrorWithAttachment (Some Demo.boom)
                                Demo.trailer))]
           (ext Demo.w0) Demo.boom Demo.trailer).
  - by apply typed_method_greeter.
  - reflexivity.
  - reflexivity.
Defined.

(** The target [Nil] is no pointer, so the copy reports an error; the
    outcome is a success all the same. *)
Lemma Invoke_typed_copy_failure_discarded_witness :
  tools_ReflectResponse (Value_of (Msg "hello")) Nil (ext Demo.w0)
  = Ok (Some (errors_New "@out should be a pointer")) (ext Demo.w0)
  ∧ let r := Invoke 1 "SayHello" [] Nil Demo.w0 in
    GetError <$> returned r = Some None ∧ kind <$> returned r = Some OK.
Proof.
  split; [reflexivity|].
  apply (Invoke_typed_copy_failure_discarded Demo.w0 1 "SayHello" [] Nil
           Demo.SayHello
           [Value_of (Msg "hello");
            Value_of (ErrAtt (mkErrorWithAttachment None Demo.trailer))]
           (ext Demo.w0) (Value_of (Msg "hello"))
           (ErrAtt (mkErrorWithAttachment None Demo.trailer))
           Demo.trailer (Some (errors_New "@out should be a pointer"))
           (ext Demo.w0)).
  - by apply typed_method_greeter.
  - reflexivity.
  - reflexivity.
  - reflexivity.
  - by right.
  - reflexivity.
Defined.

(** * The further properties at work in the concrete settings *)

Lemma typed_method_odd_stub methodName f :
  Edge.odd_stub !! methodName = Some f →
  typed_method Edge.w1 1 methodName f.
Proof. intros Hm. by exists Edge.odd_client, Edge.odd_stub. Defined.

Lemma Invoke_dynamic_no_context_panics_witness :
  let r := Invoke 2 "BigUnaryTest" [] (Ptr 0) Demo.w0 in
  panicked r = true ∧ io (final r) = io Demo.w0 ∧ ext (final r) = ext Demo.w0.
Proof.
  apply (Invoke_dynamic_no_context_panics Demo.w0 2 "BigUnaryTest" [] (Ptr 0)).
  - exact dynamic_mode_client_2.
  - intros c. discriminate.
Defined.

Lemma Invoke_dynamic_key_not_string_panics_witness :
  let r := Invoke 2 "BigUnaryTest"
             (Value_of (Ctx [("interface", Msg "IGreeter")])
                :: [Value_of (Msg "req")])
             (Ptr 0) Demo.w0 in
  panicked r = true ∧ io (final r) = io Demo.w0 ∧ ext (final r) = ext Demo.w0.
Proof.
  apply (Invoke_dynamic_key_not_string_panics Demo.w0 2 "BigUnaryTest"
           [("interface", Msg "IGreeter")] [Value_of (Msg "req")] (Ptr 0)).
  - exact dynamic_mode_client_2.
  - intros s. discriminate.
Defined.

Lemma Invoke_dynamic_zero_argument_panics_witness :
  let r := Invoke 2 "BigUnaryTest"
             (Value_of (Ctx Demo.greeter_ctx)
                :: [Value_of (Msg "req"); Value_zero])
             (Ptr 0) Demo.w0 in
  panicked r = true ∧ io (final r) = io Demo.w0 ∧ ext (final r) = ext Demo.w0.
Proof.
  apply (Invoke_dynamic_zero_argument_panics Demo.w0 2 "BigUnaryTest"
           Demo.greeter_ctx [Value_of (Msg "req"); Value_zero] (Ptr 0)
           "com.example.IGreeter").
  - exact dynamic_mode_client_2.
  - reflexivity.
  - repeat constructor.
Defined.

Lemma Invoke_typed_zero_stub_panics_witness :
  let r := Invoke 4 "SayHello" [] (Ptr 0) Edge.w1 in
  panicked r = true ∧ io (final r) = io Edge.w1 ∧ ext (final r) = ext Edge.w1.
Proof.
  apply (Invoke_typed_zero_stub_panics Edge.w1 4 "SayHello" [] (Ptr 0)
           Edge.unbound_client); reflexivity.
Defined.

Lemma Invoke_typed_short_results_panics_witness :
  let r := Invoke 1 "Short" [] (Ptr 0) Edge.w1 in
  panicked r = true
  ∧ ext (final r) = Demo.write 9 (Str "sent") (ext Edge.w1)
  ∧ io (final r) = io Edge.w1.
Proof.
  apply (Invoke_typed_short_results_panics Edge.w1 1 "Short" [] (Ptr 0)
           Edge.Short [Value_of (Msg "only")]).
  - by apply typed_method_odd_stub.
  - reflexivity.
  - simpl. lia.
Defined.

Lemma Invoke_typed_slot1_not_error_panics_witness :
  let r := Invoke 1 "Odd" [] (Ptr 0) Edge.w1 in
  panicked r = true
  ∧ ext (final r) = Demo.write 9 (Str "sent") (ext Edge.w1)
  ∧ io (final r) = io Edge.w1.
Proof.
  apply (Invoke_typed_slot1_not_error_panics Edge.w1 1 "Odd" [] (Ptr 0)
           Edge.Odd [Value_of (Msg "value"); Value_of (Str "oops")]
           (Demo.write 9 (Str "sent") (ext Edge.w1)) (Str "oops")).
  - by apply typed_method_odd_stub.
  - reflexivity.
  - reflexivity.
  - discriminate.
  - intros e. discriminate.
  - intros e. discriminate.
Defined.

Lemma Invoke_typed_method_panic_propagates_witness :
  ∃ lines,
    Invoke 1 "Crash" [] (Ptr 0) Edge.w1
    = Panic "stub crashed"
        (with_ext (Demo.write 9 (Str "sent") (ext Edge.w1))
           (logged lines Edge.w1)).
Proof.
  apply (Invoke_typed_method_panic_propagates Edge.w1 1 "Crash" [] (Ptr 0)
           Edge.Crash).
  - by apply typed_method_odd_stub.
  - reflexivity.
Defined.

Lemma NewTripleClient_controller_error_witness :
  NewTripleClient (E:=Edge.Offline) Edge.no_impl None Edge.offline_world
  = Ok (None, Some Demo.boom)
      (mkWorld (E:=Edge.Offline) (clients Edge.offline_world)
         (ext Edge.offline_world) (io Edge.offline_world)
         (logs Edge.offline_world
            ++ [(Error, "NewTripleController err = %v")])).
Proof.
  apply (NewTripleClient_controller_error (E:=Edge.Offline) Edge.no_impl None
           Edge.offline_world 0 Demo.boom (ext Edge.offline_world)).
  reflexivity.
Defined.

Lemma NewTripleClient_fresh_witness :
  let w' := final (NewTripleClient Demo.greeter_impl None Demo.w0) in
  clients Demo.w0 !! 3 = None
  ∧ (∀ u, u ≠ 3 → clients w' !! u = clients Demo.w0 !! u)
  ∧ io w' = io Demo.w0.
Proof.
  apply (NewTripleClient_fresh Demo.greeter_impl None Demo.w0 3
           (final (NewTripleClient Demo.greeter_impl None Demo.w0))).
  apply returned_final. vm_compute. reflexivity.
Defined.

Lemma NewTripleClient_dynamic_succeeds_witness :
  let r := NewTripleClient Demo.greeter_impl Edge.hessian2 Demo.w0 in
  ∃ t, returned r = Some (Some t, None)
       ∧ clients (final r) !! t
         = Some {| h2Controller := 7; stubInvoker := Value_zero;
                   once := false;
                   opt := tools_AddDefaultOption Edge.hessian2;
                   serializer := None |}
       ∧ ext (final r) = ext Demo.w0 ∧ logs (final r) = logs Demo.w0.
Proof.
  apply (NewTripleClient_dynamic_succeeds Demo.greeter_impl Edge.hessian2
           Demo.w0 7 (ext Demo.w0)).
  - by vm_compute.
  - reflexivity.
Defined.

Lemma NewTripleClient_then_Invoke_dynamic_witness :
  let built := NewTripleClient Demo.greeter_impl Edge.hessian2 Demo.w0 in
  ∃ t, returned built = Some (Some t, None)
       ∧ io (final (Invoke t "BigUnaryTest"
                      (Value_of (Ctx Demo.greeter_ctx)
                         :: (Value_of <$> [Msg "req"]))
                      (Ptr 0) (final built)))
         = io Demo.w0
           ++ [UnaryInvoke_call 7 Demo.greeter_ctx
                 ("/" +:+ "com.example.IGreeter" +:+ "/" +:+ "BigUnaryTest")
                 (Slice [Msg "req"]) (Ptr 0)].
Proof.
  apply (NewTripleClient_then_Invoke_dynamic Demo.greeter_impl Edge.hessian2
           Demo.w0 7 (ext Demo.w0) "BigUnaryTest" Demo.greeter_ctx
           [Msg "req"] (Ptr 0) "com.example.IGreeter").
  - by vm_compute.
  - reflexivity.
  - reflexivity.
Defined.

Lemma NewTripleClient_then_typed_method_witness :
  typed_method (final (NewTripleClient Demo.greeter_impl None Demo.w0)) 3
    "SayHello" Demo.SayHello.
Proof.
  apply (NewTripleClient_then_typed_method Demo.greeter_impl None Demo.w0 3
           (final (NewTripleClient Demo.greeter_impl None Demo.w0))
           Demo.greeter "SayHello" Demo.SayHello).
  - apply returned_final. vm_compute. reflexivity.
  - reflexivity.
  - intros conn x s x' [= <- _]. reflexivity.
  - reflexivity.
Defined.

Lemma delegating_operation_calls_own_controller_witness :
  io (final (perform 2 (do_StreamRequest Demo.greeter_ctx "/a/b") Demo.w0))
  = io Demo.w0 ++ [StreamInvoke_call 8 Demo.greeter_ctx "/a/b"]
  ∧ clients (final (perform 2 (do_StreamRequest Demo.greeter_ctx "/a/b")
                      Demo.w0))
    = clients Demo.w0.
Proof.
  apply (delegating_operation_calls_own_controller Demo.w0 2
           Demo.dynamic_client (do_StreamRequest Demo.greeter_ctx "/a/b")
           (StreamInvoke_call 8 Demo.greeter_ctx "/a/b")); reflexivity.
Defined.

Lemma nil_receiver_panics_witness :
  perform 0 do_Close Demo.w0
  = Panic "invalid memory address or nil pointer dereference" Demo.w0.
Proof.
  apply (nil_receiver_panics Demo.w0 0 do_Close). reflexivity.
Defined.

Lemma Invoke_typed_makes_no_call_witness :
  io (final (Invoke 1 "SayHello" [] (Ptr 0) Demo.w0)) = io Demo.w0.
Proof.
  apply (Invoke_typed_makes_no_call Demo.w0 1 Demo.typed_client "SayHello" []
           (Ptr 0)); reflexivity.
Defined.

Lemma Invoke_dynamic_at_most_one_call_witness :
  let in_ := [Value_of (Ctx Demo.greeter_ctx); Value_of (Msg "req")] in
  let r := Invoke 2 "BigUnaryTest" in_ (Ptr 0) Demo.w0 in
  (panicked r = true ∧ io (final r) = io Demo.w0)
  ∨ ∃ ctx path arg,
      head in_ = Some (Value_of (Ctx ctx))
      ∧ io (final r) = io Demo.w0 ++ [UnaryInvoke_call 8 ctx path arg (Ptr 0)].
Proof.
  apply (Invoke_dynamic_at_most_one_call Demo.w0 2 Demo.dynamic_client
           "BigUnaryTest"
           [Value_of (Ctx Demo.greeter_ctx); Value_of (Msg "req")] (Ptr 0)).
  - reflexivity.
  - by vm_compute.
Defined.

Lemma Invoke_dynamic_passes_outcome_through_witness :
  let r := Invoke 2 "BigUnaryTest"
             (Value_of (Ctx Demo.greeter_ctx) :: (Value_of <$> [Msg "req"]))
             (Ptr 0) Demo.w0 in
  let answer := http2_UnaryInvoke 8 Demo.greeter_ctx
                  ("/" +:+ "com.example.IGreeter" +:+ "/" +:+ "BigUnaryTest")
                  (Slice [Msg "req"]) (Ptr 0) (ext Demo.w0) in
  returned r = returned answer
  ∧ panicked r = panicked answer
  ∧ ext (final r) = final answer.
Proof.
  apply (Invoke_dynamic_passes_outcome_through Demo.w0 2 Demo.dynamic_client
           "BigUnaryTest" Demo.greeter_ctx [Msg "req"] (Ptr 0)
           "com.example.IGreeter").
  - reflexivity.
  - by vm_compute.
  - reflexivity.
Defined.


Lemma Request_after_Close_reaches_controller_witness :
  let w1 := final (Close 1 Demo.w0) in
  let r := Request 1 Demo.greeter_ctx "/a/b" (Msg "req") (Ptr 0) w1 in
  io (final r)
  = io Demo.w0 ++ [Destroy_call 7;
                   UnaryInvoke_call 7 Demo.greeter_ctx "/a/b" (Msg "req")
                     (Ptr 0)]
  ∧ returned r
    = returned (http2_UnaryInvoke 7 Demo.greeter_ctx "/a/b" (Msg "req")
                  (Ptr 0) (ext w1)).
Proof.
  apply (Request_after_Close_reaches_controller Demo.w0 1 Demo.typed_client
           (final (Close 1 Demo.w0)) Demo.greeter_ctx "/a/b" (Msg "req")
           (Ptr 0)).
  - reflexivity.
  - reflexivity.
Defined.
